(** * Kelp M&A automation: the citation verifier and its neighbours

    A shallow embedding of the decision logic of the pipeline
    (extract, classify, write, verify, filter) and the properties the
    specification states about it.

    Conventions of the embedding.
    - A Python [str] is a list of Unicode code points ([char := N]); string
      literals are written [u "..."] and decoded from UTF-8.
    - A Python [float] is a primitive binary64 float; [float(...)] and the
      [:.Nf] format are computed exactly from the IEEE value.
    - A Python [dict] is an insertion-ordered association list ([Dict]).
    - A call that may raise returns [Exc A]: [Ok a] or [Raise e].
    - The Unicode tables of the interpreter (case mapping, decimal digits,
      word characters) are not part of the repository: outside ASCII, code
      points are caseless, are no digits and are no word characters; white
      space is the full [str.isspace] set.  The C library's [pow], used by
      [**] on floats, is a parameter ([float_pow]). *)

From Stdlib Require Import List ZArith NArith Lia Bool String Ascii.
From Stdlib Require Import PrimFloat FloatOps SpecFloat FloatAxioms.
From Stdlib Require Uint63.
Import ListNotations.

Set Warnings "-register-all".

Set Implicit Arguments.

(* ================================================================== *)
(** * Part I: definitions                                               *)
(* ================================================================== *)

(** ** Python strings *)

Module Py.

Definition char := N.
Definition str := list char.

(** UTF-8 decoding of a well-formed byte sequence (used for literals only). *)
Fixpoint utf8 (bs : list N) : str :=
  match bs with
  | [] => []
  | b0 :: r0 =>
    if (b0 <? 128)%N then b0 :: utf8 r0
    else match r0 with
    | [] => []
    | b1 :: r1 =>
      if (b0 <? 224)%N then ((b0 - 192) * 64 + (b1 - 128))%N :: utf8 r1
      else match r1 with
      | [] => []
      | b2 :: r2 =>
        if (b0 <? 240)%N
        then ((b0 - 224) * 4096 + (b1 - 128) * 64 + (b2 - 128))%N :: utf8 r2
        else match r2 with
        | [] => []
        | b3 :: r3 =>
          ((b0 - 240) * 262144 + (b1 - 128) * 4096
           + (b2 - 128) * 64 + (b3 - 128))%N :: utf8 r3
        end
      end
    end
  end.

Definition u (s : string) : str :=
  utf8 (map Byte.to_N (list_byte_of_string s)).

Definition chr (s : string) : char := hd 0%N (u s).

Fixpoint str_eqb (a b : str) : bool :=
  match a, b with
  | [], [] => true
  | x :: a', y :: b' => (x =? y)%N && str_eqb a' b'
  | _, _ => false
  end.

Definition len (s : str) : nat := List.length s.

(** [s.startswith(p)] *)
Fixpoint startswith (p s : str) : bool :=
  match p, s with
  | [], _ => true
  | x :: p', y :: s' => (x =? y)%N && startswith p' s'
  | _ :: _, [] => false
  end.

(** [needle in hay] on strings: substring test. *)
Fixpoint str_in (needle hay : str) : bool :=
  startswith needle hay ||
  match hay with
  | [] => false
  | _ :: t => str_in needle t
  end.




(** [str.isspace] of one code point (Unicode White_Space together with the
    separators U+001C..U+001F, as CPython's [Py_UNICODE_ISSPACE]). *)
Definition is_space (c : char) : bool :=
  ((9 <=? c) && (c <=? 13) || (28 <=? c) && (c <=? 32)
   || (c =? 133) || (c =? 160) || (c =? 5760)
   || (8192 <=? c) && (c <=? 8202)
   || (c =? 8232) || (c =? 8233) || (c =? 8239) || (c =? 8287)
   || (c =? 12288))%N.

Definition is_ascii_digit (c : char) : bool := ((48 <=? c) && (c <=? 57))%N.
Definition is_ascii_upper (c : char) : bool := ((65 <=? c) && (c <=? 90))%N.
Definition is_ascii_lower (c : char) : bool := ((97 <=? c) && (c <=? 122))%N.


Definition lower_char (c : char) : char :=
  if is_ascii_upper c then (c + 32)%N else c.
Definition upper_char (c : char) : char :=
  if is_ascii_lower c then (c - 32)%N else c.

(** [s.lower()] and [s.upper()] *)
Definition lower (s : str) : str := map lower_char s.
Definition upper (s : str) : str := map upper_char s.

Fixpoint lstrip (s : str) : str :=
  match s with
  | c :: t => if is_space c then lstrip t else s
  | [] => []
  end.

Definition rstrip (s : str) : str := rev (lstrip (rev s)).

(** [s.strip()] *)
Definition strip (s : str) : str := rstrip (lstrip s).

(** [s.split(sep)] for a one-character separator: never empty. *)
Fixpoint split_on (sep : char) (s : str) : list str :=
  match s with
  | [] => [[]]
  | c :: t =>
    if (c =? sep)%N then [] :: split_on sep t
    else match split_on sep t with
         | w :: ws => (c :: w) :: ws
         | [] => [[c]]
         end
  end.


(** [s.split()]: the maximal runs of characters that are not white space. *)
Fixpoint split_ws_aux (cur : str) (s : str) : list str :=
  match s with
  | [] => match cur with [] => [] | _ => [rev cur] end
  | c :: t =>
    if is_space c
    then match cur with
         | [] => split_ws_aux [] t
         | _ => rev cur :: split_ws_aux [] t
         end
    else split_ws_aux (c :: cur) t
  end.

Definition split_ws (s : str) : list str := split_ws_aux [] s.

(** [sep.join(parts)] *)
Fixpoint join (sep : str) (parts : list str) : str :=
  match parts with
  | [] => []
  | [p] => p
  | p :: ps => p ++ sep ++ join sep ps
  end.

(** [s[a:b]] for [0 <= a <= b]. *)
Definition slice (s : str) (a b : nat) : str := firstn (b - a) (skipn a s).

(** Decimal digits of a natural number, most significant first. *)
Fixpoint digits_fuel (fuel : nat) (n : N) (acc : str) : str :=
  match fuel with
  | O => acc
  | S f =>
    let acc' := (48 + n mod 10)%N :: acc in
    if (n <? 10)%N then acc' else digits_fuel f (n / 10)%N acc'
  end.

Definition str_of_N (n : N) : str := digits_fuel (S (N.to_nat (N.log2 n))) n [].

(** [str(z)] of an integer. *)
Definition str_of_Z (z : Z) : str :=
  match z with
  | Zneg p => 45%N :: str_of_N (Npos p)
  | _ => str_of_N (Z.to_N z)
  end.

Definition str_of_nat (n : nat) : str := str_of_N (N.of_nat n).

(** Exceptions the modelled code can raise. *)
Inductive exn := ValueError | TypeError | IndexError | KeyError.

Inductive Exc (A : Type) : Type :=
| Ok (a : A)
| Raise (e : exn).
Arguments Ok {A} a.
Arguments Raise {A} e.

Definition bind {A B} (m : Exc A) (f : A -> Exc B) : Exc B :=
  match m with
  | Ok a => f a
  | Raise e => Raise e
  end.

Notation "x <- m ;; k" := (bind m (fun x => k))
  (at level 61, m at next level, right associativity).

End Py.

Import Py.

(** ** Python numbers: [int], [float] and the results of [**] *)

Module PyFloat.

(** [float(z)] of an integer: the nearest binary64 value. *)
Definition float_of_Z (z : Z) : float :=
  SF2Prim (binary_normalize prec emax z 0 false).

Definition float_of_nat (n : nat) : float := float_of_Z (Z.of_nat n).

(** The binary64 value nearest to [(-1)^neg * m * 10^e]. *)
Definition float_of_decimal (neg : bool) (m : N) (e : Z) : float :=
  match m with
  | N0 => if neg then neg_zero else zero
  | Npos p =>
    match e with
    | Zneg q =>
      SF2Prim (SFdiv prec emax (S754_finite neg p 0)
                               (S754_finite false (Pos.pow 10 q) 0))
    | _ =>
      let n := (Zpos p * 10 ^ e)%Z in
      SF2Prim (binary_normalize prec emax (if neg then (- n)%Z else n) 0 false)
    end
  end.

(** Digits after a first digit: [(["_"] digit)*]. *)
Fixpoint digits_run (s : str) : list N * str :=
  match s with
  | [] => ([], [])
  | c :: t =>
    if is_ascii_digit c
    then let (ds, r) := digits_run t in ((c - 48)%N :: ds, r)
    else if (c =? 95)%N
    then match t with
         | d :: t' =>
           if is_ascii_digit d
           then let (ds, r) := digits_run t' in ((d - 48)%N :: ds, r)
           else ([], s)
         | [] => ([], s)
         end
    else ([], s)
  end.

(** [digit (["_"] digit)*]; no digits read when [s] starts otherwise. *)
Definition digitpart (s : str) : list N * str :=
  match s with
  | c :: t =>
    if is_ascii_digit c
    then let (ds, r) := digits_run t in ((c - 48)%N :: ds, r)
    else ([], s)
  | [] => ([], [])
  end.

Definition value_of (ds : list N) : N :=
  fold_left (fun acc d => (acc * 10 + d)%N) ds 0%N.

(** An optional sign: [(is_negative, rest)]. *)
Definition read_sign (s : str) : bool * str :=
  match s with
  | c :: t =>
    if (c =? 45)%N then (true, t)
    else if (c =? 43)%N then (false, t)
    else (false, s)
  | [] => (false, [])
  end.

(** [int(s)] in base 10; [ValueError] on anything but
    [ws* [sign] digit (["_"] digit)* ws*]. *)
Definition py_int (s : str) : Exc Z :=
  let (neg, s1) := read_sign (strip s) in
  match digitpart s1 with
  | ((_ :: _) as ds, []) =>
    let n := Z.of_N (value_of ds) in
    Ok (if neg then (- n)%Z else n)
  | _ => Raise ValueError
  end.

(** The exponent part [(e|E) [sign] digitpart], when there is one. *)
Definition read_exponent (s : str) : option (Z * str) :=
  match s with
  | c :: t =>
    if ((c =? 101) || (c =? 69))%N
    then let (eneg, t1) := read_sign t in
         match digitpart t1 with
         | ((_ :: _) as ds, r) =>
           let n := Z.of_N (value_of ds) in
           Some (if eneg then (- n)%Z else n, r)
         | _ => None
         end
    else Some (0%Z, s)
  | [] => Some (0%Z, [])
  end.

(** [float(s)]: white space stripped, then [inf], [infinity], [nan] or a
    decimal literal, each with an optional sign; [ValueError] otherwise. *)
Definition py_float (s : str) : Exc float :=
  let (neg, s1) := read_sign (strip s) in
  let l := lower s1 in
  if str_eqb l (u "inf") || str_eqb l (u "infinity")
  then Ok (if neg then neg_infinity else infinity)
  else if str_eqb l (u "nan") then Ok nan
  else
    let (ip, r1) := digitpart s1 in
    let (fp, r2) :=
      match r1 with
      | c :: t => if (c =? 46)%N then digitpart t else ([], r1)
      | [] => ([], [])
      end in
    match ip ++ fp with
    | [] => Raise ValueError
    | ds =>
      match read_exponent r2 with
      | Some (ex, []) =>
        Ok (float_of_decimal neg (value_of ds) (ex - Z.of_nat (List.length fp)))
      | _ => Raise ValueError
      end
    end.

Definition round_half_even_div (num den : Z) : Z :=
  let q := (num / den)%Z in
  let r := (num mod den)%Z in
  match (2 * r ?= den)%Z with
  | Lt => q
  | Gt => (q + 1)%Z
  | Eq => if Z.even q then q else (q + 1)%Z
  end.

Definition zero_pad (width : nat) (s : str) : str :=
  match width - len s with
  | O => s
  | S k => repeat 48%N (S k) ++ s
  end.

(** The digits of [q / 10^d] with [d] decimals. *)
Definition fixed_digits (d : nat) (q : Z) : str :=
  let scale := (10 ^ Z.of_nat d)%Z in
  str_of_N (Z.to_N (q / scale)) ++
  match d with
  | O => []
  | _ => 46%N :: zero_pad d (str_of_N (Z.to_N (q mod scale)))
  end.

(** The magnitude of a float in the format [.df]: the exact binary value
    rounded to [d] decimals, ties to even. *)
Definition format_abs (d : nat) (x : float) : str :=
  match Prim2SF x with
  | S754_nan => u "nan"
  | S754_infinity _ => u "inf"
  | S754_zero _ => fixed_digits d 0
  | S754_finite _ m e =>
    let scale := (10 ^ Z.of_nat d)%Z in
    fixed_digits d
      match e with
      | Zneg p => round_half_even_div (Zpos m * scale) (Zpos (Pos.pow 2 p))
      | _ => (Zpos m * 2 ^ e * scale)%Z
      end
  end.

Definition sign_bit (x : float) : bool :=
  match Prim2SF x with
  | S754_nan => false
  | S754_infinity s | S754_zero s | S754_finite s _ _ => s
  end.

(** [f"{x:.df}"] *)
Definition format_f (d : nat) (x : float) : str :=
  (if sign_bit x then [45%N] else []) ++ format_abs d x.

(** [f"{x:+.df}"]: the sign always written. *)
Definition format_f_signed (d : nat) (x : float) : str :=
  (if sign_bit x then 45%N else 43%N) :: format_abs d x.

(** What [x ** y] on floats evaluates to: a float, or a complex number for
    a negative base and a fractional exponent. *)
Inductive pynum :=
| NFloat (x : float)
| NComplex (re im : float).

(** [v - 1] and [v * 100] with the integer operand coerced as CPython does. *)
Definition num_sub_int (v : pynum) (k : Z) : pynum :=
  match v with
  | NFloat x => NFloat (x - float_of_Z k)
  | NComplex re im => NComplex (re - float_of_Z k) (im - zero)
  end.

Definition num_mul_int (v : pynum) (k : Z) : pynum :=
  match v with
  | NFloat x => NFloat (x * float_of_Z k)
  | NComplex re im =>
    NComplex (re * float_of_Z k - im * zero) (re * zero + im * float_of_Z k)
  end.

(** [f"{v:.df}"] of a number. *)
Definition format_num (d : nat) (v : pynum) : str :=
  match v with
  | NFloat x => format_f d x
  | NComplex re im => format_f d re ++ format_f_signed d im ++ u "j"
  end.

(** Python's [a > b] and [a < b] on floats. *)
Definition gt (a b : float) : bool := ltb b a.
Definition lt (a b : float) : bool := ltb a b.

End PyFloat.

Import PyFloat.

(** ** Python dictionaries and dynamically typed values *)

Module Dict.

Section Ops.
Variables K V : Type.
Variable keqb : K -> K -> bool.

Definition t := list (K * V).

(** [d.get(k)] *)
Fixpoint get (d : t) (k : K) : option V :=
  match d with
  | [] => None
  | (k', v) :: r => if keqb k' k then Some v else get r k
  end.

(** [d[k] = v]: an existing key keeps its place. *)
Fixpoint set (d : t) (k : K) (v : V) : t :=
  match d with
  | [] => [(k, v)]
  | (k', v') :: r => if keqb k' k then (k', v) :: r else (k', v') :: set r k v
  end.

Definition keys (d : t) : list K := map fst d.

(** [k in d] *)
Definition mem (d : t) (k : K) : bool := existsb (fun k' => keqb k' k) (keys d).

(** A dictionary holds every key once. *)
Definition wf (d : t) : Prop := NoDup (keys d).

End Ops.

End Dict.

(** A financial series: [Dict[int, float]], year to value. *)
Definition series := Dict.t Z float.
Abbreviation year_get := (Dict.get Z.eqb).
Definition year_in (y : Z) (d : series) : bool := Dict.mem Z.eqb d y.

(** [d[y]]: [KeyError] when [y] is no key of [d]. *)
Definition getitem (d : series) (y : Z) : Exc float :=
  match year_get d y with
  | Some v => Ok v
  | None => Raise KeyError
  end.
Abbreviation str_get := (Dict.get str_eqb).

Fixpoint insert_sorted (y : Z) (l : list Z) : list Z :=
  match l with
  | [] => [y]
  | x :: r => if (y <=? x)%Z then y :: l else x :: insert_sorted y r
  end.

(** [sorted(l)] on integers. *)
Definition sorted (l : list Z) : list Z := fold_right insert_sorted [] l.

(** [max(l)] of a non-empty list of integers. *)
Definition max_of (y : Z) (l : list Z) : Z := fold_left Z.max l y.

Inductive pykey :=
| KStr (s : str)
| KInt (z : Z).

Inductive pyval :=
| VNone
| VBool (b : bool)
| VInt (z : Z)
| VFloat (x : float)
| VComplex (re im : float)
| VStr (s : str)
| VList (l : list pyval)
| VDict (d : list (pykey * pyval)).

(** [f"{k}"] of a dictionary key. *)
Definition key_str (k : pykey) : str :=
  match k with
  | KStr s => s
  | KInt z => str_of_Z z
  end.

(** ** Regular expressions: the fragment of [re] the repository uses

    A backtracking matcher with Python's priorities: alternatives are tried
    in order, a greedy repetition takes as much as it can and gives back one
    character at a time, a lazy one takes as little as it can. *)

Module Re.

Inductive cclass :=
| CLit (c : char)        (* a literal character *)
| CDigit                 (* \d *)
| CSpace                 (* \s *)
| CAny                   (* .  : anything but a newline *)
| CSet (cs : list cclass). (* [...] *)

Inductive regex :=
| Eps
| Chr (c : cclass)
| Cat (r1 r2 : regex)
| Opt (r : regex)                                        (* r?  *)
| Rep (c : cclass) (lo : nat) (hi : option nat) (greedy : bool)
| Grp (i : nat) (r : regex).                             (* (r) *)

(** Case-insensitive comparison of a text character with an ASCII pattern
    character, as [re.IGNORECASE] does on [str] patterns: equal lower case,
    or one of the four code points that fold onto [i], [s] and [k]. *)
Definition ci_eq (p c : char) : bool :=
  let lp := lower_char p in
  (lower_char c =? lp)%N
  || (lp =? 105)%N && ((c =? 304) || (c =? 305))%N
  || (lp =? 115)%N && (c =? 383)%N
  || (lp =? 107)%N && (c =? 8490)%N.

Fixpoint cmatch (ic : bool) (cl : cclass) (c : char) : bool :=
  match cl with
  | CLit p => if ic then ci_eq p c else (p =? c)%N
  | CDigit => is_ascii_digit c
  | CSpace => is_space c
  | CAny => negb (c =? 10)%N
  | CSet cs => existsb (fun cl' => cmatch ic cl' c) cs
  end.

(** Group number to the span [(start, end)] it matched last. *)
Definition caps := list (nat * (nat * nat)).

Definition may_take (hi : option nat) : bool :=
  match hi with
  | Some O => false
  | _ => true
  end.

Definition dec (hi : option nat) : option nat := option_map pred hi.

Section Matcher.
Variable ic : bool.
Variable A : Type.

(** [c{lo,hi}] and [c{lo,hi}?] from position [pos] with [s] left to read. *)
Fixpoint rep (greedy : bool) (c : cclass) (lo : nat) (hi : option nat)
  (pos : nat) (s : str) (cs : caps)
  (k : nat -> str -> caps -> option A) {struct s} : option A :=
  let stop := match lo with O => k pos s cs | S _ => None end in
  let more :=
    match s with
    | x :: t =>
      if may_take hi && cmatch ic c x
      then rep greedy c (pred lo) (dec hi) (S pos) t cs k
      else None
    | [] => None
    end in
  if greedy
  then match more with Some m => Some m | None => stop end
  else match stop with Some m => Some m | None => more end.

Fixpoint rmatch (r : regex) (pos : nat) (s : str) (cs : caps)
  (k : nat -> str -> caps -> option A) : option A :=
  match r with
  | Eps => k pos s cs
  | Chr c =>
    match s with
    | x :: t => if cmatch ic c x then k (S pos) t cs else None
    | [] => None
    end
  | Cat r1 r2 =>
    rmatch r1 pos s cs (fun p s' cs' => rmatch r2 p s' cs' k)
  | Opt r1 =>
    match rmatch r1 pos s cs k with
    | Some m => Some m
    | None => k pos s cs
    end
  | Rep c lo hi greedy => rep greedy c lo hi pos s cs k
  | Grp i r1 =>
    rmatch r1 pos s cs (fun p s' cs' => k p s' ((i, (pos, p)) :: cs'))
  end.

End Matcher.

(** The first match starting at [pos] or later, group 0 being the match. *)
Fixpoint search_from (ic : bool) (r : regex) (pos : nat) (s : str)
  : option caps :=
  match rmatch ic r pos s [] (fun p _ cs => Some ((0, (pos, p)) :: cs)) with
  | Some m => Some m
  | None =>
    match s with
    | [] => None
    | _ :: t => search_from ic r (S pos) t
    end
  end.

(** [re.search(r, s)] and [re.search(r, s, re.I)] *)
Definition search (ic : bool) (r : regex) (s : str) : option caps :=
  search_from ic r 0 s.

Fixpoint span_of (i : nat) (m : caps) : option (nat * nat) :=
  match m with
  | [] => None
  | (j, sp) :: r => if Nat.eqb i j then Some sp else span_of i r
  end.

(** [m.group(i)] for a group that took part in the match. *)
Definition group (s : str) (m : caps) (i : nat) : str :=
  match span_of i m with
  | Some (a, b) => slice s a b
  | None => []
  end.

(** A literal word as a pattern. *)
Fixpoint lit (w : str) : regex :=
  match w with
  | [] => Eps
  | c :: t => Cat (Chr (CLit c)) (lit t)
  end.

Definition star (c : cclass) : regex := Rep c 0 None true.
Definition plus (c : cclass) : regex := Rep c 1 None true.

(** [re.sub(r'[...]', '', s)]: the characters of a class removed. *)
Definition remove_class (cl : cclass) (s : str) : str :=
  filter (fun c => negb (cmatch false cl c)) s.

(** [re.sub(r'\s+', ' ', s)]: each run of white space becomes one space. *)
Fixpoint collapse_spaces (in_run : bool) (s : str) : str :=
  match s with
  | [] => []
  | c :: t =>
    if is_space c
    then if in_run then collapse_spaces true t
         else 32%N :: collapse_spaces true t
    else c :: collapse_spaces false t
  end.

End Re.

Import Re.

(** Float literals of the sources that are not dyadic, as the doubles the
    interpreter reads them to. *)
Definition f0_3 : float := 0x1.3333333333333p-2%float.   (* 0.3 *)

(** ** agents/data_extractor.py *)

Module data_extractor.

Record FinancialData := {
  revenue : series;
  ebitda : series;
  pat : series;
  pat_margin : series;
  roce : series;
  roe : series;
  asset_turnover : series;
  borrowings : series;
  equity : series
}.

Record Shareholder := { sh_name : str; sh_value : float; sh_type : str }.
Record Milestone := { ms_date : str; ms_milestone : str }.

Record CompanyData := {
  name : str;
  business_description : str;
  website : str;
  domain : str;
  segment : str;
  products_services : list str;
  industries_served : str;
  headquarters : str;
  founded : str;
  employees : str;
  shareholders : list Shareholder;
  key_milestones : list Milestone;
  certifications : list str;
  awards : list str;
  partners : list str;
  clients : list str;
  financials_data : FinancialData;
  key_operational_indicators : list str;
  swot : Dict.t str (list str);
  global_presence : list str;
  future_plans : list str;
  market_size : list (Dict.t str str);
  facilities : list str
}.

(** The mapping [to_dict()] returns, and the verifier reads: the company
    fields in order, then the entry ['financials'] holding one year-to-value
    series per metric. *)
Record ExtractedData := {
  fields : Dict.t str pyval;
  financials : Dict.t str series
}.

Definition strs (l : list str) : pyval := VList (map VStr l).
Definition str_dict (d : Dict.t str str) : pyval :=
  VDict (map (fun kv => (KStr (fst kv), VStr (snd kv))) d).

Definition to_dict (d : CompanyData) : ExtractedData :=
  {| fields :=
       [ (u "name", VStr (name d));
         (u "business_description", VStr (business_description d));
         (u "website", VStr (website d));
         (u "domain", VStr (domain d));
         (u "segment", VStr (segment d));
         (u "products_services", strs (products_services d));
         (u "industries_served", VStr (industries_served d));
         (u "headquarters", VStr (headquarters d));
         (u "founded", VStr (founded d));
         (u "employees", VStr (employees d));
         (u "shareholders",
          VList (map (fun sh => VDict [ (KStr (u "name"), VStr (sh_name sh));
                                        (KStr (u "value"), VFloat (sh_value sh));
                                        (KStr (u "type"), VStr (sh_type sh)) ])
                     (shareholders d)));
         (u "key_milestones",
          VList (map (fun m => VDict [ (KStr (u "date"), VStr (ms_date m));
                                       (KStr (u "milestone"), VStr (ms_milestone m)) ])
                     (key_milestones d)));
         (u "certifications", strs (certifications d));
         (u "awards", strs (awards d));
         (u "partners", strs (partners d));
         (u "clients", strs (clients d));
         (u "key_operational_indicators", strs (key_operational_indicators d));
         (u "swot",
          VDict (map (fun kv => (KStr (fst kv), strs (snd kv))) (swot d)));
         (u "global_presence", strs (global_presence d));
         (u "future_plans", strs (future_plans d));
         (u "market_size", VList (map str_dict (market_size d)));
         (u "facilities", strs (facilities d)) ];
     financials :=
       let f := financials_data d in
       [ (u "revenue", revenue f);
         (u "ebitda", ebitda f);
         (u "pat", pat f);
         (u "pat_margin", pat_margin f);
         (u "roce", roce f);
         (u "roe", roe f);
         (u "asset_turnover", asset_turnover f);
         (u "borrowings", borrowings f) ] |}.





(** [if not <field>: issues.append(message)] *)
Definition issue (missing : bool) (message : string) : list str :=
  if missing then [u message] else [].

(** [DataExtractor.validate], [data] being [self.data]: whether none of the
    issues holds the word "Missing", and the issues found, in order. *)
Definition validate (data : CompanyData) : bool * list str :=
  let issues :=
    issue (len (business_description data) =? 0) "Missing business description"
    ++ issue (len (website data) =? 0) "Missing website URL"
    ++ issue (List.length (revenue (financials_data data)) =? 0)
             "Missing revenue data"
    ++ issue (List.length (ebitda (financials_data data)) =? 0)
             "Missing EBITDA data"
    ++ issue (List.length (products_services data) =? 0)
             "Warning: No products/services extracted"
    ++ issue (List.length (shareholders data) =? 0)
             "Warning: No shareholders extracted" in
  (negb (existsb (str_in (u "Missing")) issues), issues).

(** [l[:n]] for an integer [n]: a negative [n] counts from the end. *)
Definition take (n : Z) {A : Type} (l : list A) : list A :=
  if (0 <=? n)%Z then firstn (Z.to_nat n) l
  else firstn (List.length l - Z.to_nat (- n)) l.

(** [{year: d[year] for year in years}] *)
Fixpoint restrict (d : series) (years : list Z) (acc : series) : Exc series :=
  match years with
  | [] => Ok acc
  | year :: rest =>
    v <- getitem d year ;;
    restrict d rest (Dict.set Z.eqb acc year v)
  end.

(** [get_latest_years_data]; [sorted(..., reverse=True)] of integers is the
    sorted list reversed. *)
Definition get_latest_years_data (financial_dict : series) (num_years : Z)
  : Exc series :=
  match financial_dict with
  | [] => Ok []
  | _ =>
    let sorted_years := take num_years (rev (sorted (Dict.keys financial_dict))) in
    restrict financial_dict (sorted sorted_years) []
  end.

End data_extractor.

(** ** agents/domain_classifier.py *)

Module domain_classifier.











End domain_classifier.

(** ** agents/content_writer.py *)

Module content_writer.

Import data_extractor.

Record VerifiedClaim := {
  text : str;
  source : str;
  vc_original_value : option pyval
}.

Record SlideContent := {
  title : str;
  sections : Dict.t str (list str);
  metrics : Dict.t str pyval;
  hooks : option (list str);
  citations : list VerifiedClaim
}.

Definition NEVER_SHORTEN : list str :=
  map u ["products"; "services"; "certifications"; "industries";
         "shareholders"]%string.






Section Writer.

(** [self.company_name] *)
Variable company_name : str.

(** The text-generation collaborator: [self.ollama.available] and
    [self.ollama.generate(prompt, temperature, max_tokens)]. *)
Variable ollama_available : bool.
Variable ollama_generate : str -> nat -> option str.


Fixpoint lstrip_char (ch : char) (s : str) : str :=
  match s with
  | c :: t => if (c =? ch)%N then lstrip_char ch t else s
  | [] => []
  end.

(** [s.rstrip(ch)] and [s.strip(ch)] for one character. *)
Definition rstrip_char (ch : char) (s : str) : str :=
  rev (lstrip_char ch (rev s)).
Definition strip_char (ch : char) (s : str) : str :=
  rstrip_char ch (lstrip_char ch s).

(** [s.endswith(p)] *)
Definition endswith (p s : str) : bool := startswith (rev p) (rev s).

(** The fallback of [_shorten_text]: whole words while they fit. *)
Fixpoint take_words (max_chars : nat) (result : str) (ws : list str) : str :=
  match ws with
  | [] => result
  | word :: rest =>
    if max_chars <? len result + len word + 1 then result
    else take_words max_chars
           (match result with [] => word | _ => result ++ u " " ++ word end)
           rest
  end.

Definition shorten_prompt (text : str) (max_chars : nat) : str :=
  u "Shorten this text to under " ++ str_of_nat max_chars
  ++ u " characters while keeping the key meaning." ++ [10%N]
  ++ u "Do NOT end with " ++ [34%N] ++ u "..." ++ [34%N]
  ++ u " or cut mid-word." ++ [10%N; 10%N]
  ++ u "Text: " ++ text ++ [10%N; 10%N]
  ++ u "Return only the shortened text:".

(** [_shorten_text] (the token accounting apart). *)
Definition _shorten_text (text : str) (max_chars : nat) (context : str) : str :=
  if (len text =? 0) || (len text <=? max_chars) then text
  else
    let fallback := strip (take_words max_chars [] (split_ws text)) in
    if ollama_available then
      match ollama_generate (shorten_prompt text max_chars) 80 with
      | Some ((_ :: _) as result) =>
        let shortened := strip_char 39%N (strip_char 34%N (strip result)) in
        let shortened := rstrip_char 46%N shortened in
        let shortened :=
          if endswith (u "..") shortened
          then firstn (len shortened - 2) shortened else shortened in
        if len shortened <=? max_chars then shortened else fallback
      | _ => fallback
      end
    else fallback.

(** [[f(x) for x in l]] for an [f] that may raise. *)
Fixpoint map_exc {A B} (f : A -> Exc B) (l : list A) : Exc (list B) :=
  match l with
  | [] => Ok []
  | x :: r => y <- f x ;; ys <- map_exc f r ;; Ok (y :: ys)
  end.




End Writer.

End content_writer.

(** ** agents/citation_verifier.py *)

Module citation_verifier.

Import data_extractor.

Record Citation := {
  slide_num : Z;
  claim : str;
  verified : bool;
  source_type : str;
  source_reference : str;
  original_value : option pyval;
  line_number : option nat;
  line_content : option str
}.

Definition series_value (s : series) : pyval :=
  VDict (map (fun yv => (KInt (fst yv), VFloat (snd yv))) s).

(** The mapping itself, as a dynamically typed value. *)
Definition as_dict (e : ExtractedData) : pyval :=
  VDict (map (fun kv => (KStr (fst kv), snd kv)) (fields e)
         ++ [(KStr (u "financials"),
              VDict (map (fun ms => (KStr (fst ms), series_value (snd ms)))
                         (financials e)))]).

(** An element of [market_data['sources']]: a [MarketDataSource] object, a
    mapping with optional ['name'] and ['url'], or anything else. *)
Inductive source_entry :=
| SourceObject (source_name source_url : str)
| SourceDict (name url : option str)
| SourceOther.

(** A non-empty [web_data['market_data']] mapping. *)
Record MarketData := {
  industry_name : option str;
  india_market_size : option str;
  cagr : option str;
  key_drivers : option (list str);
  sources : option (list source_entry)
}.

(** A value of [web_data['company_info']]: a mapping with optional
    ['content'] and ['url'], or anything else. *)
Inductive page_data :=
| PageDict (content url : option str)
| PageOther.

(** [self.web_data]; [market_data = None] stands for an absent or empty
    mapping. *)
Record WebData := {
  market_data : option MarketData;
  company_info : Dict.t str page_data
}.

Record CitationVerifier := {
  citations : list Citation;
  md_content : str;
  md_lines : list str;
  extracted_data : ExtractedData;
  web_data : WebData;
  md_file_path : str
}.

(** [CitationVerifier()] *)
Definition __init__ : CitationVerifier :=
  {| citations := []; md_content := []; md_lines := [];
     extracted_data := {| fields := []; financials := [] |};
     web_data := {| market_data := None; company_info := [] |};
     md_file_path := [] |}.

(** [set_sources] called with the content of the document (as [main.py]
    calls it; an empty [md_content] makes the code read the file instead,
    which is outside the model). *)
Definition set_sources (self : CitationVerifier) (md_file : str)
  (data : ExtractedData) (content : str) (web : option WebData)
  : CitationVerifier :=
  {| citations := citations self;
     md_content := content;
     md_lines := split_on 10%N content;
     extracted_data := data;
     web_data := match web with
                 | Some w => w
                 | None => {| market_data := None; company_info := [] |}
                 end;
     md_file_path := md_file |}.

Definition unverified (slide : Z) (c : str) (why : string) : Citation :=
  {| slide_num := slide; claim := c; verified := false;
     source_type := u "unverified"; source_reference := u why;
     original_value := None; line_number := None; line_content := None |}.

Definition cited (slide : Z) (c : str) (kind : string) (ref : str)
  (orig : option pyval) : Citation :=
  {| slide_num := slide; claim := c; verified := true;
     source_type := u kind; source_reference := ref;
     original_value := orig; line_number := None; line_content := None |}.

(** The patterns of [_is_calculated_claim], searched with [re.I]. *)
Definition calculated_patterns : list regex :=
  [ lit (u "CAGR");
    lit (u "Margin");
    Cat (plus CDigit)
      (Cat (Opt (Grp 1 (Cat (Chr (CLit 46%N)) (plus CDigit))))
        (Cat (Chr (CLit 37%N)) (Cat (star CAny) (lit (u "CAGR")))));
    lit (u "Revenue CAGR");
    lit (u "EBITDA Margin") ].

Definition any_search (ps : list regex) (s : str) : bool :=
  existsb (fun p => match search true p s with Some _ => true | None => false end) ps.

Definition _is_calculated_claim (c : str) : bool :=
  any_search calculated_patterns c.

(** The patterns of [_is_web_claim], searched with [re.I]. *)
Definition web_patterns : list regex :=
  [ lit (u "Industry Size");
    lit (u "Industry Growth");
    lit (u "Market Size");
    Cat (Chr (CLit 36%N)) (Cat (plus CDigit) (Cat (star CAny) (lit (u "billion"))));
    lit (u "Positioned for") ].

Definition _is_web_claim (c : str) : bool :=
  any_search web_patterns c.

(** [r'FY(\d{2,4}).*?₹?([\d.]+)\s*Cr'] *)
Definition fy_pattern : regex :=
  Cat (lit (u "FY"))
   (Cat (Grp 1 (Rep CDigit 2 (Some 4) true))
    (Cat (Rep CAny 0 None false)
     (Cat (Opt (Chr (CLit 8377%N)))
      (Cat (Grp 2 (plus (CSet [CDigit; CLit 46%N])))
       (Cat (star CSpace) (lit (u "Cr"))))))).

Definition metric (e : ExtractedData) (name : string) : series :=
  match str_get (financials e) (u name) with
  | Some s => s
  | None => []
  end.

(** [source_ref] of [_verify_web_data]: the named sources, one per line. *)
Definition source_urls (m : MarketData) : list str :=
  flat_map
    (fun src =>
       match src with
       | SourceObject nm url => [u "[" ++ nm ++ u "](" ++ url ++ u ")"]
       | SourceDict nm url =>
         [u "[" ++ match nm with Some x => x | None => u "Source" end
          ++ u "](" ++ match url with Some x => x | None => u "#" end ++ u ")"]
       | SourceOther => []
       end)
    (match sources m with Some l => l | None => [] end).

Definition source_ref (m : MarketData) : str :=
  match source_urls m with
  | [] => u "Industry estimates"
  | l => join [10%N] l
  end.

(** Truth value of [d.get(key)] for a string entry: present and not empty. *)
Definition truthy (o : option str) : option str :=
  match o with
  | Some ((_ :: _) as s) => Some s
  | _ => None
  end.

(** The checks of [_verify_web_data] against a non-empty [market_data]. *)
Definition check_market (m : MarketData) (slide : Z) (c : str)
  : option Citation :=
  let size_hit :=
    if str_in (u "Market Size") c || str_in (u "Industry Size") c
       || str_in (u "$") c
    then truthy (india_market_size m) else None in
  match size_hit with
  | Some size =>
    Some (cited slide c "web"
            (u "Data: India market size = " ++ size ++ [10%N] ++ u "Sources:"
             ++ [10%N] ++ source_ref m)
            (Some (VStr size)))
  | None =>
    let growth_hit :=
      if str_in (u "Growth") c || str_in (u "CAGR") (upper c)
      then truthy (cagr m) else None in
    match growth_hit with
    | Some g =>
      Some (cited slide c "web"
              (u "Data: Industry CAGR = " ++ g ++ [10%N] ++ u "Sources:"
               ++ [10%N] ++ source_ref m)
              (Some (VStr g)))
    | None =>
      if str_in (u "Positioned for") c || str_in (u "driven by") (lower c)
      then match key_drivers m with
           | Some ((_ :: _) as drivers) =>
             Some (cited slide c "web"
                     (u "Industry drivers: " ++ join (u ", ") drivers ++ [10%N]
                      ++ u "Sources:" ++ [10%N] ++ source_ref m)
                     (Some (VList (map VStr drivers))))
           | _ => None
           end
      else None
    end
  end.

(** The scan of the scraped company pages. *)
Fixpoint check_pages (pages : Dict.t str page_data) (slide : Z) (c : str)
  : option Citation :=
  match pages with
  | [] => None
  | (page_type, PageDict (Some content) url) :: rest =>
    if existsb (fun word => str_in word (lower content))
               (firstn 3 (split_ws (lower c)))
    then Some (cited slide c "web"
                 (u "Source: Company Website - " ++ page_type ++ [10%N]
                  ++ u "URL: " ++ match url with Some x => x | None => u "N/A" end)
                 (Some match url with Some x => VStr x | None => VNone end))
    else check_pages rest slide c
  | _ :: rest => check_pages rest slide c
  end.

Definition _verify_web_data (self : CitationVerifier) (slide : Z)
  (c context : str) : Citation :=
  let from_market :=
    match market_data (web_data self) with
    | Some m => check_market m slide c
    | None => None
    end in
  match from_market with
  | Some cit => cit
  | None =>
    match check_pages (company_info (web_data self)) slide c with
    | Some cit => cit
    | None => unverified slide c "Web data not found"
    end
  end.

(** [r'[*_#\-|`]'] *)
Definition markdown_chars : cclass :=
  CSet [CLit 42%N; CLit 95%N; CLit 35%N; CLit 45%N; CLit 124%N; CLit 96%N].

Definition _clean_for_matching (text : str) : str :=
  match text with
  | [] => []
  | _ => strip (lower (collapse_spaces false (remove_class markdown_chars text)))
  end.

(** [_flatten_dict(v, parent_key)] for a mapping [v]. *)
Fixpoint _flatten_dict (v : pyval) (parent_key : str) : list (str * pyval) :=
  match v with
  | VDict d =>
    (fix entries (d : list (pykey * pyval)) : list (str * pyval) :=
       match d with
       | [] => []
       | (k, x) :: rest =>
         let new_key :=
           match parent_key with
           | [] => key_str k
           | _ => parent_key ++ u "." ++ key_str k
           end in
         match x with
         | VDict _ => _flatten_dict x new_key
         | VList l =>
           (fix items (i : nat) (l : list pyval) : list (str * pyval) :=
              match l with
              | [] => []
              | item :: l' =>
                let item_key := new_key ++ u "[" ++ str_of_nat i ++ u "]" in
                match item with
                | VDict _ => _flatten_dict item item_key
                | _ => [(item_key, item)]
                end ++ items (S i) l'
              end) 0 l
         | _ => [(new_key, x)]
         end ++ entries rest
       end) d
  | _ => []
  end.

(** [set(words)]: each word once. *)
Fixpoint distinct (ws : list str) : list str :=
  match ws with
  | [] => []
  | w :: r => if existsb (str_eqb w) r then distinct r else w :: distinct r
  end.

(** The state of the loop over the lines: [(best_match, best_score)]. *)
Definition best := (option (nat * str) * float)%type.

(** One turn of the loop of [_verify_onepager]. *)
Definition line_step (clean_claim : str) (st : best) (line_num : nat)
  (line : str) : best :=
  let clean_line := _clean_for_matching line in
  let st1 :=
    if str_in clean_claim clean_line || str_in clean_line clean_claim then
      let score := (float_of_nat (len clean_claim)
                    / float_of_nat (Nat.max (len clean_line) 1))%float in
      if gt score (snd st) then (Some (line_num, line), score) else st
    else st in
  let claim_words := distinct (split_ws clean_claim) in
  let line_words := distinct (split_ws clean_line) in
  if 2 <? List.length claim_words then
    let overlap :=
      (float_of_nat
         (List.length (filter (fun w => existsb (str_eqb w) line_words) claim_words))
       / float_of_nat (List.length claim_words))%float in
    if gt overlap 0.5 && gt overlap (snd st1)
    then (Some (line_num, line), overlap) else st1
  else st1.

(** The loop over [enumerate(lines, line_num)]. *)
Fixpoint scan_lines (clean_claim : str) (st : best) (line_num : nat)
  (lines : list str) : best :=
  match lines with
  | [] => st
  | line :: rest =>
    scan_lines clean_claim (line_step clean_claim st line_num line)
               (S line_num) rest
  end.

(** The second pass: the first string field that contains the claim or is
    contained in it. *)
Fixpoint check_fields (clean_claim : str) (fs : list (str * pyval))
  (slide : Z) (c : str) : option Citation :=
  match fs with
  | [] => None
  | (field_name, VStr field_value) :: rest =>
    let clean_field := _clean_for_matching field_value in
    if str_in clean_claim clean_field || str_in clean_field clean_claim
    then Some (cited slide c "onepager" (u "Field: " ++ field_name)
                 (Some (VStr field_value)))
    else check_fields clean_claim rest slide c
  | _ :: rest => check_fields clean_claim rest slide c
  end.

Definition _verify_onepager (self : CitationVerifier) (slide : Z)
  (c context : str) : Citation :=
  let clean_claim := _clean_for_matching c in
  match scan_lines clean_claim (None, zero) 1 (md_lines self) with
  | (Some (line_num, line), best_score) =>
    if gt best_score f0_3 then
      {| slide_num := slide; claim := c; verified := true;
         source_type := u "onepager";
         source_reference := u "Line " ++ str_of_nat line_num ++ u ": " ++ strip line;
         original_value := None;
         line_number := Some line_num;
         line_content := Some (strip line) |}
    else
      match check_fields clean_claim
              (_flatten_dict (as_dict (extracted_data self)) []) slide c with
      | Some cit => cit
      | None => unverified slide c "No matching source found in one-pager"
      end
  | (None, _) =>
    match check_fields clean_claim
            (_flatten_dict (as_dict (extracted_data self)) []) slide c with
    | Some cit => cit
    | None => unverified slide c "No matching source found in one-pager"
    end
  end.

Section Calculated.

(** [x ** y] on floats, as the C library computes it. *)
Variable float_pow : float -> float -> pynum.

Definition val_of_num (v : pynum) : pyval :=
  match v with
  | NFloat x => VFloat x
  | NComplex re im => VComplex re im
  end.

(** The CAGR branch of [_verify_calculated]: the citation it returns, or
    [None] when the code falls through to the next check. *)
Definition check_cagr (self : CitationVerifier) (slide : Z) (c : str)
  : Exc (option Citation) :=
  if str_in (u "CAGR") c then
    let revenue := metric (extracted_data self) "revenue" in
    if 2 <=? List.length revenue then
      let years := sorted (Dict.keys revenue) in
      let start_yr := hd 0%Z years in
      let end_yr := last years 0%Z in
      start_val <- getitem revenue start_yr ;;
      end_val <- getitem revenue end_yr ;;
      let n := (end_yr - start_yr)%Z in
      if gt start_val zero && (0 <? n)%Z then
        let cagr :=
          num_mul_int
            (num_sub_int
               (float_pow (end_val / start_val) (float_of_Z 1 / float_of_Z n)) 1)
            100 in
        let formula :=
          u "CAGR = ((FY" ++ str_of_Z end_yr ++ u "_Revenue / FY"
          ++ str_of_Z start_yr ++ u "_Revenue)^(1/" ++ str_of_Z n
          ++ u ") - 1) × 100" in
        let calculation :=
          u "= ((" ++ format_f 2 end_val ++ u " / " ++ format_f 2 start_val
          ++ u ")^(1/" ++ str_of_Z n ++ u ") - 1) × 100" in
        let result := u "= " ++ format_num 1 cagr ++ u "%" in
        Ok (Some (cited slide c "calculated"
                    (formula ++ [10%N] ++ calculation ++ [10%N] ++ result)
                    (Some (VDict [(KStr (u "start"), VFloat start_val);
                                  (KStr (u "end"), VFloat end_val);
                                  (KStr (u "years"), VInt n);
                                  (KStr (u "cagr"), val_of_num cagr)]))))
      else Ok None
    else Ok None
  else Ok None.

(** The margin branch. *)
Definition check_margin (self : CitationVerifier) (slide : Z) (c : str)
  : Exc (option Citation) :=
  if str_in (u "Margin") c then
    let ebitda := metric (extracted_data self) "ebitda" in
    let revenue := metric (extracted_data self) "revenue" in
    match ebitda, revenue with
    | _ :: _, _ :: _ =>
      let common := filter (fun y => year_in y revenue) (Dict.keys ebitda) in
      match common with
      | y0 :: ys =>
        let yr := max_of y0 ys in
        rev_yr <- getitem revenue yr ;;
        if gt rev_yr zero then
          ebitda_yr <- getitem ebitda yr ;;
          let margin := (ebitda_yr / rev_yr * float_of_Z 100)%float in
          let formula :=
            u "EBITDA Margin = (FY" ++ str_of_Z yr ++ u "_EBITDA / FY"
            ++ str_of_Z yr ++ u "_Revenue) × 100" in
          let calculation :=
            u "= (" ++ format_f 2 ebitda_yr ++ u " / " ++ format_f 2 rev_yr
            ++ u ") × 100" in
          let result := u "= " ++ format_f 1 margin ++ u "%" in
          Ok (Some (cited slide c "calculated"
                      (formula ++ [10%N] ++ calculation ++ [10%N] ++ result)
                      (Some (VDict [(KStr (u "ebitda"), VFloat ebitda_yr);
                                    (KStr (u "revenue"), VFloat rev_yr);
                                    (KStr (u "margin"), VFloat margin)]))))
        else Ok None
      | [] => Ok None
      end
    | _, _ => Ok None
    end
  else Ok None.

(** [year in d and abs(d[year] - value) < 1]: the stored value when so. *)
Definition within_one (d : series) (year : Z) (value : float) : option float :=
  match year_get d year with
  | Some v => if lt (abs (v - value)) (float_of_Z 1) then Some v else None
  | None => None
  end.

(** The direct check of a ["FY<year> ... <amount> Cr"] claim. *)
Definition check_fy_value (self : CitationVerifier) (slide : Z) (c : str)
  : Exc (option Citation) :=
  match search false fy_pattern c with
  | Some fy_match =>
    let year_str := group c fy_match 1 in
    value <- py_float (group c fy_match 2) ;;
    y <- py_int year_str ;;
    let year := if len year_str =? 2 then (2000 + y)%Z else y in
    let revenue := metric (extracted_data self) "revenue" in
    let ebitda := metric (extracted_data self) "ebitda" in
    match within_one revenue year value with
    | Some v =>
      Ok (Some (cited slide c "onepager"
                  (u "Financial data: Revenue FY" ++ str_of_Z year
                   ++ u " = ₹" ++ format_f 2 v ++ u " Cr")
                  (Some (VFloat v))))
    | None =>
      match within_one ebitda year value with
      | Some w =>
        Ok (Some (cited slide c "onepager"
                    (u "Financial data: EBITDA FY" ++ str_of_Z year
                     ++ u " = ₹" ++ format_f 2 w ++ u " Cr")
                    (Some (VFloat w))))
      | None => Ok None
      end
    end
  | None => Ok None
  end.

Definition _verify_calculated (self : CitationVerifier) (slide : Z)
  (c context : str) : Exc Citation :=
  r1 <- check_cagr self slide c ;;
  match r1 with
  | Some cit => Ok cit
  | None =>
    r2 <- check_margin self slide c ;;
    match r2 with
    | Some cit => Ok cit
    | None =>
      r3 <- check_fy_value self slide c ;;
      match r3 with
      | Some cit => Ok cit
      | None => Ok (unverified slide c "Calculated value not verified")
      end
    end
  end.


Definition _verify_claim (self : CitationVerifier) (slide : Z)
  (c context : str) : Exc Citation :=
  match c with
  | [] => Ok (unverified slide c "Empty or too short")
  | _ =>
    if len (strip c) <? 3 then Ok (unverified slide c "Empty or too short")
    else if _is_calculated_claim c then _verify_calculated self slide c context
    else if _is_web_claim c then Ok (_verify_web_data self slide c context)
    else Ok (_verify_onepager self slide c context)
  end.

(** [self.citations.append(citation)] *)
Definition record (self : CitationVerifier) (cit : Citation) : CitationVerifier :=
  {| citations := citations self ++ [cit];
     md_content := md_content self;
     md_lines := md_lines self;
     extracted_data := extracted_data self;
     web_data := web_data self;
     md_file_path := md_file_path self |}.

(** The inner loops of [verify_slide_content]: the claims of one section
    (or the hooks) verified in order, each citation recorded. *)
Fixpoint verify_items (self : CitationVerifier) (slide : Z) (items : list str)
  (context : str) (acc : list Citation)
  : Exc (list Citation * CitationVerifier) :=
  match items with
  | [] => Ok (acc, self)
  | item :: rest =>
    citation <- _verify_claim self slide item context ;;
    verify_items (record self citation) slide rest context (acc ++ [citation])
  end.

Fixpoint verify_sections (self : CitationVerifier) (slide : Z)
  (secs : Dict.t str (list str)) (acc : list Citation)
  : Exc (list Citation * CitationVerifier) :=
  match secs with
  | [] => Ok (acc, self)
  | (section_name, items) :: rest =>
    r <- verify_items self slide items section_name acc ;;
    verify_sections (snd r) slide rest (fst r)
  end.

(** [verify_slide_content]: the citations of the slide and the verifier
    with them appended to [self.citations]. *)
Definition verify_slide_content (self : CitationVerifier) (slide : Z)
  (slide_content : content_writer.SlideContent)
  : Exc (list Citation * CitationVerifier) :=
  r <- verify_sections self slide (content_writer.sections slide_content) [] ;;
  match content_writer.hooks slide_content with
  | Some ((_ :: _) as hooks) =>
    verify_items (snd r) slide hooks (u "Investment Hook") (fst r)
  | _ => Ok r
  end.

End Calculated.

(** *** The citation report *)

(** [verification_rate]: a float, or the integer [100] when nothing was
    verified. *)
Inductive rate :=
| IntRate (z : Z)
| FloatRate (x : float).

Record VerificationReport := {
  total_claims : nat;
  verified_count : nat;
  by_source_type : Dict.t str nat;
  verification_rate : rate
}.

(** What [generate_report] writes through [python-docx]: headings with their
    level, and paragraphs made of runs of text that are bold or not; a
    paragraph may be indented. *)
Inductive run := Run (text : str) (bold : bool).

Inductive block :=
| Heading (text : str) (level : nat)
| Paragraph (runs : list run) (indented : bool).

(** [(verified / total * 100) if total > 0 else 100]; the counts are lengths
    of lists, far below [2^53], so that the quotient of their floats is the
    quotient the interpreter computes. *)
Definition rate_of (verified_n total : nat) : rate :=
  if 0 <? total
  then FloatRate (float_of_nat verified_n / float_of_nat total * float_of_Z 100)
  else IntRate 100.

(** [f"{rate:.1f}"] *)
Definition format_rate (r : rate) : str :=
  match r with
  | IntRate z => format_f 1 (float_of_Z z)
  | FloatRate x => format_f 1 x
  end.

(** [by_type[c.source_type] = by_type.get(c.source_type, 0) + 1] for each
    citation in turn. *)
Definition count_types (cits : list Citation) : Dict.t str nat :=
  fold_left
    (fun by_type c =>
       Dict.set str_eqb by_type (source_type c)
         (match str_get by_type (source_type c) with
          | Some n => n
          | None => 0
          end + 1))
    cits [].

Definition summary_runs (total verified_n : nat) (r : rate)
  (by_type : Dict.t str nat) : list run :=
  [ Run (u "Total Claims: " ++ str_of_nat total ++ [10%N]) true;
    Run (u "Verified: " ++ str_of_nat verified_n ++ u " (" ++ format_rate r
         ++ u "%)" ++ [10%N]) false;
    Run ([10%N] ++ u "By Source Type:" ++ [10%N]) false ]
  ++ map (fun tc => Run (u "  • " ++ fst tc ++ u ": " ++ str_of_nat (snd tc)
                         ++ [10%N]) false)
         by_type.

(** The four paragraphs of a verified citation. *)
Definition citation_blocks (c : Citation) : list block :=
  [ Paragraph [Run (u "Claim: ") true; Run (claim c) false] false;
    Paragraph [Run (u "Source Type: ") true; Run (upper (source_type c)) false]
              false;
    Paragraph [Run (u "Reference: ") true; Run (source_reference c) false] false;
    Paragraph [Run (u "---") false] false ].

(** The part of the report for one slide number. *)
Definition slide_blocks (cits : list Citation) (n : Z) : list block :=
  match filter (fun c => (slide_num c =? n)%Z && verified c) cits with
  | [] => []
  | slide_citations =>
    Heading (u "Slide " ++ str_of_Z n) 2
    :: flat_map citation_blocks slide_citations
  end.

(** The two paragraphs of an unverified claim. *)
Definition unverified_blocks (c : Citation) : list block :=
  [ Paragraph [Run (u "Slide " ++ str_of_Z (slide_num c) ++ u ": ") true;
               Run (claim c) false] false;
    Paragraph [Run (u "Reason: " ++ source_reference c) false] true ].

(** [generate_report]: the document saved at [output_path] and the summary
    returned. *)
Definition generate_report (self : CitationVerifier) (company_name : str)
  : list block * VerificationReport :=
  let total := List.length (citations self) in
  let verified_n := List.length (filter verified (citations self)) in
  let r := rate_of verified_n total in
  let by_type := count_types (citations self) in
  let slide_nums :=
    sorted (nodup Z.eq_dec (map slide_num (citations self))) in
  let unverified_citations :=
    filter (fun c => negb (verified c)) (citations self) in
  ( [ Heading (u "Citation Report: " ++ company_name) 0;
      Paragraph (summary_runs total verified_n r by_type) false;
      Heading (u "Verified Citations") 1 ]
    ++ flat_map (slide_blocks (citations self)) slide_nums
    ++ match unverified_citations with
       | [] => []
       | _ => Heading (u "Unverified Claims (Excluded from PPT)") 1
              :: flat_map unverified_blocks unverified_citations
       end,
    {| total_claims := total;
       verified_count := verified_n;
       by_source_type := by_type;
       verification_rate := r |} ).

End citation_verifier.

(** ** main.py *)

Module main.

Import content_writer citation_verifier.

(** [any(c.verified and (c.claim == item or item in c.claim or
    c.claim in item) for c in self.verifier.citations)] *)
Definition is_verified (cits : list Citation) (item : str) : bool :=
  existsb
    (fun c => verified c
              && (str_eqb (claim c) item || str_in item (claim c)
                  || str_in (claim c) item))
    cits.

(** The loop over [slide.sections.items()], [verified_sections] being the
    mapping built so far. *)
Fixpoint filter_sections (cits : list Citation)
  (verified_sections : Dict.t str (list str))
  (secs : Dict.t str (list str)) : Dict.t str (list str) :=
  match secs with
  | [] => verified_sections
  | (section_name, items) :: rest =>
    let verified_items := filter (is_verified cits) items in
    filter_sections cits
      match verified_items with
      | [] => verified_sections
      | _ => Dict.set str_eqb verified_sections section_name verified_items
      end
      rest
  end.

(** The body of the loop of [_filter_verified]: one slide filtered. *)
Definition filter_slide (cits : list Citation) (slide : SlideContent)
  : SlideContent :=
  let verified_sections := filter_sections cits [] (sections slide) in
  let verified_hooks :=
    match hooks slide with
    | Some hs => filter (is_verified cits) hs
    | None => []
    end in
  {| title := title slide;
     sections := verified_sections;
     metrics := metrics slide;
     hooks := match verified_hooks with [] => None | _ => Some verified_hooks end;
     content_writer.citations := [] |}.

(** [KelpPipeline._filter_verified], [verifier] being [self.verifier]. *)
Definition _filter_verified (verifier : CitationVerifier)
  (slides : list SlideContent) : list SlideContent :=
  map (filter_slide (citation_verifier.citations verifier)) slides.

(** Step 5 of [process]: the slides verified in order, [i] being the number
    of the next slide (from 1) and [all_citations] the citations so far. *)
Fixpoint verify_slides (float_pow : float -> float -> pynum)
  (verifier : CitationVerifier) (i : Z) (slide_content : list SlideContent)
  (all_citations : list Citation)
  : Exc (list Citation * CitationVerifier) :=
  match slide_content with
  | [] => Ok (all_citations, verifier)
  | slide :: rest =>
    r <- verify_slide_content float_pow verifier i slide ;;
    verify_slides float_pow (snd r) (i + 1)%Z rest (all_citations ++ fst r)
  end.

(** Steps 5 and 6 of [process]: the sources set, every slide verified, the
    slides filtered with the citations gathered. *)
Definition verify_and_filter (float_pow : float -> float -> pynum)
  (verifier : CitationVerifier) (md_file : str)
  (extracted : data_extractor.ExtractedData)
  (md_content : str) (web : option WebData)
  (slide_content : list SlideContent)
  : Exc (list Citation * list SlideContent * CitationVerifier) :=
  let verifier := set_sources verifier md_file extracted md_content web in
  r <- verify_slides float_pow verifier 1 slide_content [] ;;
  Ok (fst r, _filter_verified (snd r) slide_content, snd r).

End main.

(** ** Sample inputs *)

Module Samples.

Import data_extractor content_writer citation_verifier.

(** A verifier holding one verified and one unverified citation. *)
Definition verifier_with_citations : CitationVerifier :=
  {| citation_verifier.citations :=
       [ cited 1 (u "ISO 9001:2015 certified") "onepager"
               (u "Line 12: - ISO 9001:2015 certified") None;
         unverified 1 (u "Fastest growing brand") "No matching source found in one-pager" ];
     md_content := []; md_lines := [];
     extracted_data := {| fields := []; financials := [] |};
     web_data := {| market_data := None; company_info := [] |};
     md_file_path := [] |}.

Definition profile_slide : SlideContent :=
  {| title := u "Business Profile & Capabilities";
     sections := [ (u "Certifications", [u "ISO 9001:2015 certified"; u "Fastest growing brand"]);
                   (u "Awards", [u "Fastest growing brand"]) ];
     metrics := [];
     hooks := Some [u "ISO 9001"];
     content_writer.citations := [] |}.

(** A stand-in for the C library's [pow] where the model is run: right, up
    to rounding, at the exponent 1/4 (two square roots).  Only the CAGR
    branch calls [**]. *)
Definition quartic_pow (x y : float) : pynum :=
  NFloat (PrimFloat.sqrt (PrimFloat.sqrt x)).

Definition one_line_document : str := u "Acme makes industrial widgets".


(** Sources with [revenue = {2024: 210}] only. *)
Definition revenue_verifier : CitationVerifier :=
  set_sources __init__ (u "onepager.md")
    {| fields := []; financials := [ (u "revenue", [(2024%Z, 210%float)]) ] |}
    one_line_document None.

Definition revenue_2020_2024 : series :=
  [ (2020%Z, 100%float); (2021%Z, 120%float); (2022%Z, 145%float);
    (2023%Z, 175%float); (2024%Z, 210%float) ].


(** A slide whose first claim names an amount that is no number. *)
Definition slide_with_table_header : SlideContent :=
  {| title := u "Financial & Operational Performance";
     sections := [ (u "Financial KPIs",
                    [u "EBITDA Margin FY24 (Rs. Cr)"; u "Acme makes industrial widgets"]) ];
     metrics := [];
     hooks := None;
     content_writer.citations := [] |}.




(** Sources without financial series, the document holding two claims as
    lines of their own. *)
Definition table_verifier : CitationVerifier :=
  set_sources __init__ (u "onepager.md")
    {| fields := []; financials := [] |}
    (u "## Financials" ++ [10%N] ++ u "EBITDA Margin: 19.0%" ++ [10%N]
     ++ u "EBITDA Margin FY24 (Rs. Cr)")
    None.

(** Extracted data with [revenue = {2024: 210}] and [ebitda = {2024: 40}]. *)
Definition margin_data : ExtractedData :=
  {| fields := [];
     financials := [ (u "revenue", [(2024%Z, 210%float)]);
                     (u "ebitda", [(2024%Z, 40%float)]) ] |}.

(** A slide with a claim the sources back and one they do not. *)
Definition kpi_slide : SlideContent :=
  {| title := u "Financial & Operational Performance";
     sections := [ (u "Financial KPIs",
                    [u "EBITDA Margin: 19.0%"; u "Fastest growing brand"]) ];
     metrics := [];
     hooks := Some [u "Acme makes industrial widgets"];
     content_writer.citations := [] |}.

(** Sources whose document ends with a newline: its last line is empty. *)
Definition blank_line_verifier : CitationVerifier :=
  set_sources __init__ (u "onepager.md")
    {| fields := []; financials := [] |}
    (one_line_document ++ [10%N])
    None.

End Samples.

(* ================================================================== *)
(** * Part II: the vocabulary of the properties                         *)
(* ================================================================== *)

Unset Implicit Arguments.

Section Vocabulary.
Import data_extractor domain_classifier content_writer citation_verifier.

(** [a] occurs in [b] as a substring. *)
Definition Substring (a b : str) : Prop :=
  exists pre post, b = pre ++ a ++ post.

(** Some verified citation has a claim equal to [item], containing it or
    contained in it. *)
Definition backed (cits : list Citation) (item : str) : Prop :=
  exists c, In c cits /\ verified c = true
            /\ (claim c = item \/ Substring item (claim c)
                \/ Substring (claim c) item).

(** The items of a section of a slide (none when the section is absent),
    and its hooks. *)
Definition section_items (s : SlideContent) (name : str) : list str :=
  match str_get (sections s) name with
  | Some items => items
  | None => []
  end.

Definition hook_items (s : SlideContent) : list str :=
  match hooks s with
  | Some hs => hs
  | None => []
  end.

(** What a call of the verifier says of the claim, when it returns. *)
Definition verdict (r : Exc Citation) : option bool :=
  match r with
  | Ok cit => Some (verified cit)
  | Raise _ => None
  end.

Definition reference_of (r : Exc Citation) : option str :=
  match r with
  | Ok cit => Some (source_reference cit)
  | Raise _ => None
  end.

Definition kind_of (r : Exc Citation) : option str :=
  match r with
  | Ok cit => Some (source_type cit)
  | Raise _ => None
  end.

















(** The invariant of a citation returned for the claim [c] of a slide. *)
Definition well_formed (slide : Z) (c : str) (cit : Citation) : Prop :=
  slide_num cit = slide
  /\ claim cit = c
  /\ source_reference cit <> []
  /\ (verified cit = true <->
      source_type cit = u "onepager" \/ source_type cit = u "calculated"
      \/ source_type cit = u "web")
  /\ (verified cit = false <-> source_type cit = u "unverified").

(** Runs of white space reduced to single spaces, none at the start when
    [after_space] is set. *)
Fixpoint spaced (after_space : bool) (s : str) : Prop :=
  match s with
  | [] => True
  | c :: t =>
    if is_space c then c = 32%N /\ after_space = false /\ spaced true t
    else spaced false t
  end.

(** The form [_clean_for_matching] gives a text: no markdown character, no
    ASCII capital, no white space but single spaces between other
    characters. *)
Definition cleaned (s : str) : Prop :=
  (forall c, In c s ->
     cmatch false markdown_chars c = false /\ is_ascii_upper c = false
     /\ (is_space c = true -> c = 32%N))
  /\ (forall pre a b post, s = pre ++ a :: b :: post ->
        is_space a = true -> is_space b = false)
  /\ (forall c t, s = c :: t -> is_space c = false)
  /\ (forall t c, s = t ++ [c] -> is_space c = false).

(** The claims of a slide in the order [verify_slide_content] takes them,
    each with its context: the items of the sections, then the hooks. *)
Definition slide_claims (s : SlideContent) : list (str * str) :=
  flat_map (fun sec => map (fun item => (item, fst sec)) (snd sec)) (sections s)
  ++ map (fun hook => (hook, u "Investment Hook")) (hook_items s).

(** The claims of the slides of a deck, numbered from [i]. *)
Fixpoint deck_claims (i : Z) (slides : list SlideContent)
  : list (Z * (str * str)) :=
  match slides with
  | [] => []
  | s :: rest => map (pair i) (slide_claims s) ++ deck_claims (i + 1) rest
  end.

(** Two verifiers hold the same sources. *)
Definition same_sources (a b : CitationVerifier) : Prop :=
  md_content a = md_content b /\ md_lines a = md_lines b
  /\ extracted_data a = extracted_data b /\ web_data a = web_data b
  /\ md_file_path a = md_file_path b.

(** How many of the citations have the kind [kind]. *)
Definition cited_as (kind : str) (cits : list Citation) : nat :=
  List.length (filter (fun c => str_eqb (source_type c) kind) cits).

(** The value of a count that may be absent: [d.get(k, 0)]. *)
Definition count_of (d : Dict.t str nat) (k : str) : nat :=
  match str_get d k with
  | Some n => n
  | None => 0
  end.

(** A citation is unverified exactly when its kind says so. *)
Definition kind_agrees (c : Citation) : Prop :=
  verified c = false <-> source_type c = u "unverified".

(** The share of the words of the cleaned claim that are words of the
    cleaned line, as the keyword match computes it. *)
Definition word_overlap (clean_claim clean_line : str) : float :=
  let claim_words := distinct (split_ws clean_claim) in
  let line_words := distinct (split_ws clean_line) in
  (float_of_nat
     (List.length (filter (fun w => existsb (str_eqb w) line_words) claim_words))
   / float_of_nat (List.length claim_words))%float.

(** The line matches the claim, directly or by its words. *)
Definition line_matches (c line : str) : Prop :=
  let clean_claim := _clean_for_matching c in
  let clean_line := _clean_for_matching line in
  str_in clean_claim clean_line = true \/ str_in clean_line clean_claim = true
  \/ (2 < List.length (distinct (split_ws clean_claim))
      /\ gt (word_overlap clean_claim clean_line) 0.5 = true).

(** The state of the scan holds a match whose score exceeds 0.3. *)
Definition settled (st : best) : Prop :=
  fst st <> None /\ gt (snd st) f0_3 = true.

(** The state of the scan is the initial one, or holds a match and a score
    that was stored because it exceeded another. *)
Definition reached (st : best) : Prop :=
  (fst st = None /\ snd st = zero)
  \/ (fst st <> None /\ exists p, ltb p (snd st) = true).

(** Ascending order, as [sorted] leaves a list. *)
Fixpoint ascending (l : list Z) : Prop :=
  match l with
  | [] => True
  | x :: r => (forall y, In y r -> (x <= y)%Z) /\ ascending r
  end.

(** The words of a text: none is empty, none holds white space. *)
Definition is_a_word (w : str) : Prop :=
  w <> [] /\ forall c, In c w -> is_space c = false.

End Vocabulary.

(* ================================================================== *)
(** * Part III: lemmas                                                  *)
(* ================================================================== *)

(** ** Strings and dictionaries *)

Lemma str_eqb_eq (a b : str) : str_eqb a b = true <-> a = b.
Proof.
  revert b; induction a as [|x a IH]; intros [|y b]; simpl;
    try (split; [discriminate | discriminate]); try tauto.
  rewrite andb_true_iff, N.eqb_eq, IH.
  split; [intros [-> ->]; reflexivity | intros H; injection H; auto].
Qed.

Lemma str_eqb_refl (a : str) : str_eqb a a = true.
Proof. apply str_eqb_eq; reflexivity. Qed.

Lemma str_eqb_neq (a b : str) : str_eqb a b = false <-> a <> b.
Proof.
  rewrite <- str_eqb_eq. destruct (str_eqb a b); split; congruence.
Qed.

Lemma startswith_spec (p s : str) :
  startswith p s = true <-> exists t, s = p ++ t.
Proof.
  revert s; induction p as [|x p IH]; intros s; simpl.
  - split; [intros _; exists s; reflexivity | reflexivity].
  - destruct s as [|y s].
    + split; [discriminate | intros [t Ht]; discriminate].
    + rewrite andb_true_iff, N.eqb_eq, IH. split.
      * intros [-> [t ->]]. exists t; reflexivity.
      * intros [t Ht]. injection Ht as -> ->. split; [reflexivity | now exists t].
Qed.

Lemma str_in_spec (a b : str) : str_in a b = true <-> Substring a b.
Proof.
  unfold Substring. induction b as [|y b IH].
  - simpl. rewrite orb_false_r, startswith_spec. split.
    + intros [t Ht]. exists [], t. exact Ht.
    + intros [pre [post H]]. destruct pre; [now exists post | discriminate].
  - cbn [str_in]. rewrite orb_true_iff, startswith_spec, IH. split.
    + intros [[t Ht] | [pre [post H]]].
      * exists [], t. exact Ht.
      * exists (y :: pre), post. simpl. now rewrite H.
    + intros [[|z pre] [post H]].
      * left. now exists post.
      * right. injection H as _ H. now exists pre, post.
Qed.

Lemma str_in_refl (a : str) : str_in a a = true.
Proof. apply str_in_spec. exists [], []. now rewrite app_nil_r. Qed.

Section DictFacts.
Context {V : Type}.
Implicit Types d : Dict.t str V.

Lemma get_set_same d k v : str_get (Dict.set str_eqb d k v) k = Some v.
Proof.
  induction d as [|[k' v'] d IH]; simpl.
  - now rewrite str_eqb_refl.
  - destruct (str_eqb k' k) eqn:E; simpl; rewrite E; auto.
Qed.

Lemma get_set_other d k k' v :
  k <> k' -> str_get (Dict.set str_eqb d k v) k' = str_get d k'.
Proof.
  intros Hne. induction d as [|[k0 v0] d IH]; simpl.
  - apply str_eqb_neq in Hne. now rewrite Hne.
  - destruct (str_eqb k0 k) eqn:E; simpl.
    + apply str_eqb_eq in E; subst k0.
      apply str_eqb_neq in Hne. now rewrite Hne.
    + now rewrite IH.
Qed.

Lemma get_none_not_key d k : ~ In k (Dict.keys d) -> str_get d k = None.
Proof.
  induction d as [|[k0 v0] d IH]; simpl; intros H; auto.
  destruct (str_eqb k0 k) eqn:E.
  - apply str_eqb_eq in E. tauto.
  - apply IH. tauto.
Qed.


Lemma mem_get d k :
  Dict.mem str_eqb d k = true <-> exists v, str_get d k = Some v.
Proof.
  unfold Dict.mem, Dict.keys. induction d as [|[k0 v0] d IH]; simpl.
  - split; [discriminate | intros [v H]; discriminate].
  - destruct (str_eqb k0 k); simpl; [split; eauto | exact IH].
Qed.

End DictFacts.

Lemma year_in_get (d : series) (y : Z) :
  year_in y d = true -> exists v, year_get d y = Some v.
Proof.
  unfold year_in, Dict.mem, Dict.keys. induction d as [|[k v] d IH]; simpl.
  - discriminate.
  - destruct (k =? y)%Z; simpl; eauto.
Qed.

Lemma key_in_get (d : series) (y : Z) :
  In y (Dict.keys d) -> exists v, year_get d y = Some v.
Proof.
  unfold Dict.keys. induction d as [|[k v] d IH]; simpl.
  - tauto.
  - intros [-> | H].
    + rewrite Z.eqb_refl. eauto.
    + destruct (k =? y)%Z; eauto.
Qed.

Lemma year_get_set_same (d : series) (y : Z) (v : float) :
  year_get (Dict.set Z.eqb d y v) y = Some v.
Proof.
  induction d as [|[k w] d IH]; simpl.
  - now rewrite Z.eqb_refl.
  - destruct (k =? y)%Z eqn:E; simpl; rewrite E; auto.
Qed.

Lemma year_get_set_other (d : series) (y y' : Z) (v : float) :
  y <> y' -> year_get (Dict.set Z.eqb d y v) y' = year_get d y'.
Proof.
  intros Hne. induction d as [|[k w] d IH]; simpl.
  - apply Z.eqb_neq in Hne. now rewrite Hne.
  - destruct (k =? y)%Z eqn:E; simpl.
    + apply Z.eqb_eq in E; subst k. apply Z.eqb_neq in Hne. now rewrite Hne.
    + now rewrite IH.
Qed.


Lemma max_of_in (y0 : Z) (ys : list Z) : In (max_of y0 ys) (y0 :: ys).
Proof.
  unfold max_of. revert y0. induction ys as [|y ys IH]; intros y0; simpl.
  - now left.
  - destruct (IH (Z.max y0 y)) as [H | H].
    + rewrite <- H. destruct (Z.max_spec y0 y) as [[_ ->] | [_ ->]]; auto.
    + right; now right.
Qed.

Lemma insert_sorted_length (y : Z) (l : list Z) :
  List.length (insert_sorted y l) = S (List.length l).
Proof.
  induction l as [|x l IH]; simpl; auto.
  destruct (y <=? x)%Z; simpl; auto.
Qed.

Lemma sorted_length (l : list Z) : List.length (sorted l) = List.length l.
Proof.
  induction l as [|x l IH]; simpl; auto.
  now rewrite insert_sorted_length, IH.
Qed.

Lemma insert_sorted_in (y x : Z) (l : list Z) :
  In x (insert_sorted y l) <-> x = y \/ In x l.
Proof.
  induction l as [|z l IH]; simpl.
  - intuition.
  - destruct (y <=? z)%Z; simpl; rewrite ?IH; intuition.
Qed.

Lemma sorted_in (x : Z) (l : list Z) : In x (sorted l) <-> In x l.
Proof.
  induction l as [|z l IH]; simpl; [tauto|].
  rewrite insert_sorted_in, IH. intuition.
Qed.

Lemma hd_in (l : list Z) : l <> [] -> In (hd 0%Z l) l.
Proof. destruct l; [congruence | intros _; now left]. Qed.

Lemma last_in (l : list Z) : l <> [] -> In (last l 0%Z) l.
Proof.
  induction l as [|x l IH]; [congruence|]. intros _.
  destruct l as [|y l]; [now left|].
  right. apply IH. discriminate.
Qed.

Lemma getitem_key (d : series) (y : Z) :
  In y (Dict.keys d) -> exists v, getitem d y = Ok v.
Proof.
  intros H. destruct (key_in_get d y H) as [v Hv].
  exists v. unfold getitem. now rewrite Hv.
Qed.


Lemma lstrip_keeps (x : char) (r : str) :
  is_space x = false ->
  forall a, exists a', lstrip (a ++ x :: r) = a' ++ x :: r.
Proof.
  intros Hx. induction a as [|c a IH]; cbn [app lstrip].
  - exists []. now rewrite Hx.
  - destruct (is_space c); [exact IH | now exists (c :: a)].
Qed.

(** Stripping keeps a word whose first and last characters are no white
    space. *)
Lemma strip_keeps_word (x z : char) (mid pre post : str) :
  is_space x = false -> is_space z = false ->
  len (x :: mid ++ [z]) <= len (strip (pre ++ (x :: mid ++ [z]) ++ post)).
Proof.
  intros Hx Hz. unfold strip, rstrip, len.
  destruct (lstrip_keeps x ((mid ++ [z]) ++ post) Hx pre) as [a' Ha].
  cbn [app] in *. rewrite Ha.
  rewrite length_rev.
  replace (rev (a' ++ x :: (mid ++ [z]) ++ post))
    with (rev post ++ z :: (rev mid ++ x :: rev a')).
  - destruct (lstrip_keeps z (rev mid ++ x :: rev a') Hz (rev post)) as [b' Hb].
    rewrite Hb. rewrite !length_app. cbn [List.length].
    rewrite !length_app, length_rev. cbn [List.length]. lia.
  - rewrite rev_app_distr. cbn [rev]. rewrite rev_app_distr, rev_app_distr.
    cbn [rev app]. rewrite <- !app_assoc. reflexivity.
Qed.



(** ** Floats: order, and the exceptions of the conversions *)

Lemma SFcompare_antisym (a b : spec_float) :
  SFcompare b a = option_map CompOpp (SFcompare a b).
Proof.
  destruct a as [sa| sa| |sa ma ea], b as [sb| sb| |sb mb eb]; simpl;
    try reflexivity;
    try (destruct sa; reflexivity); try (destruct sb; reflexivity);
    try (destruct sa, sb; reflexivity).
  destruct sa, sb; try reflexivity;
    rewrite (Z.compare_antisym ea eb);
    destruct (ea ?= eb)%Z; simpl; try reflexivity;
    rewrite (Pos.compare_cont_antisym ma mb Eq); reflexivity.
Qed.



(** The calls that can raise raise [ValueError] alone. *)
Lemma py_float_raises (s : str) (e : exn) : py_float s = Raise e -> e = ValueError.
Proof.
  unfold py_float.
  repeat match goal with
         | |- context [match ?x with _ => _ end] => destruct x
         | |- context [if ?x then _ else _] => destruct x
         end; intros H; try discriminate; now injection H.
Qed.

Lemma py_int_raises (s : str) (e : exn) : py_int s = Raise e -> e = ValueError.
Proof.
  unfold py_int.
  repeat match goal with
         | |- context [match ?x with _ => _ end] => destruct x
         | |- context [if ?x then _ else _] => destruct x
         end; intros H; try discriminate; now injection H.
Qed.


(** ** Regular expressions: literal patterns *)

Lemma ci_eq_refl (c : char) : ci_eq c c = true.
Proof. unfold ci_eq. now rewrite N.eqb_refl. Qed.

(** A literal pattern matches where the word itself stands. *)
Lemma rmatch_lit (A : Type) (w post : str) :
  forall pos cs (k : nat -> str -> caps -> option A),
    rmatch true (lit w) pos (w ++ post) cs k = k (pos + len w) post cs.
Proof.
  induction w as [|x w IH]; intros pos cs k; cbn [lit rmatch app len List.length].
  - now rewrite Nat.add_0_r.
  - cbn [cmatch]. rewrite ci_eq_refl, IH. unfold len.
    now rewrite Nat.add_succ_comm.
Qed.

Lemma search_from_unfold (ic : bool) (r : regex) (pos : nat) (s : str) :
  search_from ic r pos s =
  match rmatch ic r pos s [] (fun p _ cs => Some ((0, (pos, p)) :: cs)) with
  | Some m => Some m
  | None =>
    match s with
    | [] => None
    | _ :: t => search_from ic r (S pos) t
    end
  end.
Proof. destruct s; reflexivity. Qed.

Lemma search_lit (w c : str) :
  str_in w c = true -> exists m, search true (lit w) c = Some m.
Proof.
  intros H. apply str_in_spec in H. destruct H as [pre [post ->]].
  unfold search. generalize 0 as pos.
  induction pre as [|a pre IH]; intros pos; rewrite search_from_unfold.
  - cbn [app]. rewrite rmatch_lit. eauto.
  - cbn [app].
    destruct (rmatch true (lit w) pos (a :: pre ++ w ++ post) [] _); eauto.
Qed.

(** ** The filter of [main.py] *)

Section FilterFacts.
Import content_writer citation_verifier main.

Lemma is_verified_backed cits item :
  is_verified cits item = true <-> backed cits item.
Proof.
  unfold is_verified, backed. rewrite existsb_exists.
  split; intros [c [Hin H]]; exists c; split; auto.
  - rewrite andb_true_iff, !orb_true_iff in H.
    rewrite str_eqb_eq, !str_in_spec in H. tauto.
  - rewrite andb_true_iff, !orb_true_iff, str_eqb_eq, !str_in_spec. tauto.
Qed.

(** What the loop over the sections leaves under a name. *)
Lemma filter_sections_get cits secs :
  Dict.wf secs ->
  forall acc name,
    str_get (filter_sections cits acc secs) name =
    match str_get secs name with
    | Some items =>
      match filter (is_verified cits) items with
      | [] => str_get acc name
      | kept => Some kept
      end
    | None => str_get acc name
    end.
Proof.
  unfold Dict.wf.
  induction secs as [|[k items] rest IH]; intros Hwf acc name; simpl.
  - reflexivity.
  - simpl in Hwf. inversion Hwf as [|? ? Hnotin Hrest]; subst.
    rewrite (IH Hrest).
    destruct (str_eqb k name) eqn:E.
    + apply str_eqb_eq in E; subst k.
      rewrite (get_none_not_key rest name Hnotin).
      destruct (filter (is_verified cits) items) eqn:F; auto.
      apply get_set_same.
    + apply str_eqb_neq in E.
      assert (Hacc :
        str_get match filter (is_verified cits) items with
                | [] => acc
                | _ :: _ => Dict.set str_eqb acc k (filter (is_verified cits) items)
                end name = str_get acc name).
      { destruct (filter (is_verified cits) items); auto.
        now apply get_set_other. }
      rewrite Hacc. reflexivity.
Qed.

Lemma filter_slide_section cits slide name :
  Dict.wf (sections slide) ->
  section_items (filter_slide cits slide) name =
  filter (is_verified cits) (section_items slide name).
Proof.
  intros Hwf. unfold section_items, filter_slide; simpl.
  rewrite (filter_sections_get cits _ Hwf).
  destruct (str_get (sections slide) name) as [items|]; simpl; auto.
  destruct (filter (is_verified cits) items); reflexivity.
Qed.

Lemma filter_slide_hooks cits slide :
  hook_items (filter_slide cits slide) =
  filter (is_verified cits) (hook_items slide).
Proof.
  unfold hook_items, filter_slide; simpl.
  destruct (hooks slide) as [hs|]; simpl; auto.
  destruct (filter (is_verified cits) hs); reflexivity.
Qed.

Lemma filter_slide_section_present cits slide name :
  Dict.wf (sections slide) ->
  Dict.mem str_eqb (sections (filter_slide cits slide)) name = true <->
  filter (is_verified cits) (section_items slide name) <> [].
Proof.
  intros Hwf. rewrite mem_get. unfold section_items, filter_slide; simpl.
  rewrite (filter_sections_get cits _ Hwf).
  destruct (str_get (sections slide) name) as [items|]; simpl.
  - destruct (filter (is_verified cits) items) eqn:F.
    + split; [intros [v H]; discriminate | congruence].
    + split; [discriminate | eauto].
  - split; [intros [v H]; discriminate | congruence].
Qed.

End FilterFacts.

(** ** The financial rows of the extractor *)

Section RowFacts.
Import data_extractor.




End RowFacts.

(** ** The keyword table of the classifier *)

Section KeywordFacts.
Import domain_classifier.







End KeywordFacts.

(** ** The anonymisation of the writer *)

Section WriterFacts.
Import data_extractor content_writer.




Lemma map_exc_spec {A B : Type} (f : A -> Exc B) (l : list A) :
  forall ys, map_exc f l = Ok ys -> Forall2 (fun x y => f x = Ok y) l ys.
Proof.
  induction l as [|x l IH]; simpl; intros ys H.
  - injection H as <-. constructor.
  - destruct (f x) as [y|e] eqn:Hx; cbn [bind] in H; [|discriminate].
    destruct (map_exc f l) as [ys'|e] eqn:Hl; cbn [bind] in H; [|discriminate].
    injection H as <-. constructor; auto.
Qed.

End WriterFacts.

(** ** The checks of the verifier *)

Section VerifierFacts.
Import data_extractor content_writer citation_verifier.

Variable float_pow : float -> float -> pynum.


Ltac not_empty :=
  let Hx := fresh "Hx" in
  intro Hx;
  repeat (apply app_eq_nil in Hx; destruct Hx as [Hx _]);
  vm_compute in Hx; discriminate.

Lemma unverified_well_formed (slide : Z) (c : str) (why : string) :
  u why <> [] -> well_formed slide c (unverified slide c why).
Proof.
  intros Hwhy. unfold well_formed, unverified; cbn.
  repeat split; auto; try discriminate;
    intros [H | [H | H]]; vm_compute in H; discriminate.
Qed.

Lemma cited_well_formed (slide : Z) (c : str) (kind : string) (ref : str)
  (orig : option pyval) :
  kind = "onepager"%string \/ kind = "calculated"%string \/ kind = "web"%string ->
  ref <> [] -> well_formed slide c (cited slide c kind ref orig).
Proof.
  intros Hkind Href. unfold well_formed, cited; cbn.
  repeat split; auto; try discriminate.
  - intros _. destruct Hkind as [-> | [-> | ->]]; auto.
  - intros H. destruct Hkind as [-> | [-> | ->]]; vm_compute in H; discriminate.
Qed.

Lemma check_market_well_formed (m : MarketData) (slide : Z) (c : str) (cit : Citation) :
  check_market m slide c = Some cit -> well_formed slide c cit.
Proof.
  unfold check_market.
  repeat match goal with
         | |- context [match ?x with _ => _ end] => destruct x
         | |- context [if ?x then _ else _] => destruct x
         end;
    intros H; try discriminate; injection H as <-;
    (apply cited_well_formed; [auto | not_empty]).
Qed.

Lemma check_pages_well_formed (pages : Dict.t str page_data) (slide : Z)
  (c : str) (cit : Citation) :
  check_pages pages slide c = Some cit -> well_formed slide c cit.
Proof.
  induction pages as [|[page_type [content url|]] rest IH]; cbn [check_pages];
    [discriminate | | exact IH].
  destruct content as [content|]; [|exact IH].
  destruct (existsb _ _); [|exact IH].
  intros H; injection H as <-. apply cited_well_formed; [auto | not_empty].
Qed.

Lemma verify_web_data_well_formed (self : CitationVerifier) (slide : Z)
  (c context : str) :
  well_formed slide c (_verify_web_data self slide c context).
Proof.
  unfold _verify_web_data.
  destruct (market_data (web_data self)) as [m|].
  - destruct (check_market m slide c) as [cit|] eqn:M.
    + eapply check_market_well_formed; eauto.
    + destruct (check_pages _ slide c) as [cit|] eqn:Pg.
      * eapply check_pages_well_formed; eauto.
      * apply unverified_well_formed. discriminate.
  - destruct (check_pages _ slide c) as [cit|] eqn:Pg.
    + eapply check_pages_well_formed; eauto.
    + apply unverified_well_formed. discriminate.
Qed.

Lemma check_fields_well_formed (clean_claim : str) (fs : list (str * pyval))
  (slide : Z) (c : str) (cit : Citation) :
  check_fields clean_claim fs slide c = Some cit -> well_formed slide c cit.
Proof.
  induction fs as [|[field_name v] rest IH]; cbn [check_fields]; [discriminate|].
  destruct v; try exact IH.
  destruct (_ || _); [|exact IH].
  intros H; injection H as <-. apply cited_well_formed; [auto | not_empty].
Qed.

Lemma verify_onepager_well_formed (self : CitationVerifier) (slide : Z)
  (c context : str) :
  well_formed slide c (_verify_onepager self slide c context).
Proof.
  unfold _verify_onepager.
  assert (Hfields :
    well_formed slide c
      match check_fields (_clean_for_matching c)
              (_flatten_dict (as_dict (extracted_data self)) []) slide c with
      | Some cit => cit
      | None => unverified slide c "No matching source found in one-pager"
      end).
  { destruct (check_fields _ _ slide c) as [cit|] eqn:F.
    - eapply check_fields_well_formed; eauto.
    - apply unverified_well_formed. discriminate. }
  destruct (scan_lines _ _ _ _) as [[[line_num line]|] best_score]; [|exact Hfields].
  destruct (gt best_score f0_3); [|exact Hfields].
  unfold well_formed; cbn. repeat split; auto; discriminate.
Qed.

Lemma check_cagr_result (self : CitationVerifier) (slide : Z) (c : str) :
  match check_cagr float_pow self slide c with
  | Ok (Some cit) => well_formed slide c cit
  | Ok None => True
  | Raise _ => False
  end.
Proof.
  unfold check_cagr. destruct (str_in (u "CAGR") c); [|exact I].
  set (revenue := metric (extracted_data self) "revenue").
  destruct (2 <=? List.length revenue) eqn:Hlen; [|exact I].
  assert (Hne : sorted (Dict.keys revenue) <> []).
  { intros H. apply (f_equal (@List.length Z)) in H.
    rewrite sorted_length in H. unfold Dict.keys in H.
    rewrite length_map in H. apply Nat.leb_le in Hlen. simpl in H. lia. }
  destruct (getitem_key revenue (hd 0%Z (sorted (Dict.keys revenue))))
    as [start_val ->]; [apply sorted_in, hd_in, Hne|].
  destruct (getitem_key revenue (last (sorted (Dict.keys revenue)) 0%Z))
    as [end_val ->]; [apply sorted_in, last_in, Hne|].
  cbn [bind]. destruct (_ && _); [|exact I].
  apply cited_well_formed; [auto | not_empty].
Qed.

Lemma check_margin_result (self : CitationVerifier) (slide : Z) (c : str) :
  match check_margin self slide c with
  | Ok (Some cit) => well_formed slide c cit
  | Ok None => True
  | Raise _ => False
  end.
Proof.
  unfold check_margin. destruct (str_in (u "Margin") c); [|exact I].
  set (ebitda := metric (extracted_data self) "ebitda").
  set (revenue := metric (extracted_data self) "revenue").
  destruct ebitda as [|e0 es] eqn:Eb; [exact I|].
  destruct revenue as [|r0 rs] eqn:Er; [exact I|].
  destruct (filter (fun y => year_in y (r0 :: rs)) (Dict.keys (e0 :: es)))
    as [|y0 ys] eqn:F; [exact I|].
  assert (Hin : In (max_of y0 ys)
                   (filter (fun y => year_in y (r0 :: rs)) (Dict.keys (e0 :: es))))
    by (rewrite F; apply max_of_in).
  apply filter_In in Hin. destruct Hin as [Hk Hr].
  destruct (getitem_key _ _ Hk) as [e He].
  destruct (year_in_get _ _ Hr) as [r Hr'].
  unfold getitem at 1. rewrite Hr'. cbn [bind].
  destruct (gt r zero); [|exact I].
  rewrite He. cbn [bind].
  apply cited_well_formed; [auto | not_empty].
Qed.

Lemma check_fy_value_result (self : CitationVerifier) (slide : Z) (c : str) :
  match check_fy_value self slide c with
  | Ok (Some cit) => well_formed slide c cit
  | Ok None => True
  | Raise e => e = ValueError
  end.
Proof.
  unfold check_fy_value.
  destruct (search false fy_pattern c) as [fy_match|]; [|exact I].
  destruct (py_float _) as [value|e] eqn:Hv; cbn [bind];
    [|eapply py_float_raises; eauto].
  destruct (py_int _) as [y|e] eqn:Hy; cbn [bind];
    [|eapply py_int_raises; eauto].
  destruct (within_one _ _ value) as [v|].
  - apply cited_well_formed; [auto | not_empty].
  - destruct (within_one _ _ value) as [w|]; [|exact I].
    apply cited_well_formed; [auto | not_empty].
Qed.

Lemma verify_calculated_result (self : CitationVerifier) (slide : Z)
  (c context : str) :
  match _verify_calculated float_pow self slide c context with
  | Ok cit => well_formed slide c cit
  | Raise e => e = ValueError
  end.
Proof.
  unfold _verify_calculated.
  pose proof (check_cagr_result self slide c) as H1.
  destruct (check_cagr float_pow self slide c) as [[cit|]|e]; cbn [bind];
    [exact H1 | | destruct H1].
  pose proof (check_margin_result self slide c) as H2.
  destruct (check_margin self slide c) as [[cit|]|e]; cbn [bind];
    [exact H2 | | destruct H2].
  pose proof (check_fy_value_result self slide c) as H3.
  destruct (check_fy_value self slide c) as [[cit|]|e]; cbn [bind];
    [exact H3 | | exact H3].
  apply unverified_well_formed. discriminate.
Qed.

(** A claim containing "CAGR" or "Margin" is a calculated claim. *)
Lemma calculated_claim_by_word (c : str) :
  str_in (u "Margin") c = true \/ str_in (u "CAGR") c = true ->
  _is_calculated_claim c = true.
Proof.
  unfold _is_calculated_claim, any_search, calculated_patterns.
  intros [H | H]; destruct (search_lit _ _ H) as [m Hm]; cbn [existsb].
  - rewrite Hm. apply orb_true_iff; right. reflexivity.
  - now rewrite Hm.
Qed.

Lemma claim_with_word_not_short (c : str) :
  str_in (u "Margin") c = true \/ str_in (u "CAGR") c = true ->
  c <> [] /\ (len (strip c) <? 3) = false.
Proof.
  intros H.
  assert (Hlen : 4 <= len (strip c) /\ c <> []).
  { destruct H as [H | H]; apply str_in_spec in H; destruct H as [pre [post ->]].
    - split.
      + pose proof (strip_keeps_word 77%N 110%N (u "argi") pre post eq_refl eq_refl) as L.
        change (77%N :: u "argi" ++ [110%N]) with (u "Margin") in L.
        change (len (u "Margin")) with 6 in L. lia.
      + destruct pre; discriminate.
    - split.
      + pose proof (strip_keeps_word 67%N 82%N (u "AG") pre post eq_refl eq_refl) as L.
        change (67%N :: u "AG" ++ [82%N]) with (u "CAGR") in L.
        change (len (u "CAGR")) with 4 in L. lia.
      + destruct pre; discriminate. }
  destruct Hlen as [Hlen Hne]. split; [exact Hne|].
  apply Nat.ltb_ge. lia.
Qed.


End VerifierFacts.

(** ** The text cleaning of the verifier *)

Section CleanFacts.
Import citation_verifier.

Lemma spaced_weaken (b : bool) (s : str) : spaced true s -> spaced b s.
Proof.
  destruct s as [|c t]; cbn [spaced]; [auto|].
  destruct (is_space c); [intros [_ [H _]]; discriminate | auto].
Qed.

Lemma collapse_spaces_spaced (s : str) :
  forall in_run, spaced in_run (collapse_spaces in_run s).
Proof.
  induction s as [|c t IH]; intros in_run; cbn [collapse_spaces]; [exact I|].
  destruct (is_space c) eqn:E.
  - destruct in_run; [apply IH|].
    cbn [spaced]. change (is_space 32%N) with true. cbv iota.
    repeat split. apply IH.
  - cbn [spaced]. rewrite E. apply IH.
Qed.

Lemma is_space_lower_char (c : char) : is_space (lower_char c) = is_space c.
Proof.
  unfold lower_char. destruct (is_ascii_upper c) eqn:E; [|reflexivity].
  unfold is_ascii_upper in E. apply andb_true_iff in E. destruct E as [A B].
  apply N.leb_le in A, B. unfold is_space.
  repeat match goal with
  | |- context [(?a <=? ?b)%N] => destruct (N.leb_spec a b); try lia
  | |- context [(?a =? ?b)%N] => destruct (N.eqb_spec a b); try lia
  end; reflexivity.
Qed.

Lemma lower_spaced (s : str) : forall b, spaced b s -> spaced b (lower s).
Proof.
  induction s as [|c t IH]; intros b; cbn [lower map spaced]; [auto|].
  rewrite is_space_lower_char. destruct (is_space c).
  - intros [-> [Hb H]]. repeat split; auto; now apply IH.
  - apply IH.
Qed.

Lemma lstrip_spaced (s : str) : forall b, spaced b s -> spaced true (lstrip s).
Proof.
  induction s as [|c t IH]; intros b; cbn [lstrip spaced]; [auto|].
  destruct (is_space c) eqn:E.
  - intros [_ [_ H]]. now apply IH with (b := true).
  - intros H. cbn [spaced]. now rewrite E.
Qed.

Lemma spaced_prefix (p q : str) : forall b, spaced b (p ++ q) -> spaced b p.
Proof.
  induction p as [|c t IH]; intros b; cbn [app spaced]; [auto|].
  destruct (is_space c); [intros [A [B H]]; repeat split; auto | apply IH].
Qed.

(** What [lstrip] and [rstrip] cut off is white space. *)
Lemma lstrip_split (s : str) :
  exists ws, s = ws ++ lstrip s /\ Forall (fun c => is_space c = true) ws
             /\ (forall c t, lstrip s = c :: t -> is_space c = false).
Proof.
  induction s as [|c t [ws [H1 [H2 H3]]]]; cbn [lstrip].
  - exists []. repeat split; [constructor | discriminate].
  - destruct (is_space c) eqn:E.
    + exists (c :: ws). cbn [app]. rewrite <- H1. repeat split; auto.
    + exists []. repeat split; [constructor|]. now intros c' t' [= <- _].
Qed.

Lemma rstrip_split (s : str) :
  exists ws, s = rstrip s ++ ws /\ Forall (fun c => is_space c = true) ws
             /\ (forall t c, rstrip s = t ++ [c] -> is_space c = false).
Proof.
  unfold rstrip. destruct (lstrip_split (rev s)) as [ws [H1 [H2 H3]]].
  exists (rev ws). repeat split.
  - rewrite <- rev_app_distr, <- H1. now rewrite rev_involutive.
  - apply Forall_rev. exact H2.
  - intros t c H. apply (f_equal (@rev char)) in H.
    rewrite rev_involutive, rev_app_distr in H. cbn [rev app] in H.
    now apply H3 in H.
Qed.

Lemma rstrip_head (s : str) (c : char) (t : str) :
  (forall c' t', s = c' :: t' -> is_space c' = false) ->
  rstrip s = c :: t -> is_space c = false.
Proof.
  intros Hs H. destruct (rstrip_split s) as [ws [H1 _]].
  rewrite H in H1. cbn [app] in H1. now apply Hs in H1.
Qed.

Lemma spaced_adjacent (s : str) :
  forall b, spaced b s ->
  forall pre x y post, s = pre ++ x :: y :: post ->
                       is_space x = true -> is_space y = false.
Proof.
  induction s as [|c t IH]; intros b H pre x y post Heq Hx.
  - destruct pre; discriminate.
  - cbn [spaced] in H. destruct pre as [|p pre]; cbn [app] in Heq.
    + injection Heq as -> ->. rewrite Hx in H. destruct H as [_ [_ H]].
      cbn [spaced] in H. destruct (is_space y); [|reflexivity].
      destruct H as [_ [H _]]. discriminate.
    + injection Heq as -> ->.
      destruct (is_space p); [destruct H as [_ [_ H]]|]; eapply IH; eauto.
Qed.

Lemma spaced_space (s : str) :
  forall b, spaced b s -> forall c, In c s -> is_space c = true -> c = 32%N.
Proof.
  induction s as [|x t IH]; intros b H c Hin Hc; [destruct Hin|].
  destruct Hin as [-> | Hin]; cbn [spaced] in H.
  - rewrite Hc in H. tauto.
  - destruct (is_space x); [destruct H as [_ [_ H]]|]; eapply IH; eauto.
Qed.

Lemma strip_incl (s : str) : incl (strip s) s.
Proof.
  unfold strip. destruct (rstrip_split (lstrip s)) as [w2 [H2 _]].
  destruct (lstrip_split s) as [w1 [H1 _]].
  intros c Hc. rewrite H1, H2. apply in_or_app. right.
  apply in_or_app. now left.
Qed.

Lemma collapse_spaces_in (s : str) :
  forall b c, In c (collapse_spaces b s) -> In c s \/ c = 32%N.
Proof.
  induction s as [|x t IH]; intros b c; cbn [collapse_spaces]; [tauto|].
  destruct (is_space x).
  - destruct b.
    + intros H. apply IH in H. cbn [In]. tauto.
    + intros [<- | H]; [now right|]. apply IH in H. cbn [In]. tauto.
  - intros [<- | H]; [left; now left|]. apply IH in H. cbn [In]. tauto.
Qed.

Lemma markdown_lower_char (c : char) :
  cmatch false markdown_chars (lower_char c) = cmatch false markdown_chars c.
Proof.
  unfold lower_char. destruct (is_ascii_upper c) eqn:E; [|reflexivity].
  unfold is_ascii_upper in E. apply andb_true_iff in E. destruct E as [A B].
  apply N.leb_le in A, B. cbn [cmatch markdown_chars existsb].
  repeat match goal with
  | |- context [(?a =? ?b)%N] => destruct (N.eqb_spec a b); try lia
  end; reflexivity.
Qed.

Lemma upper_lower_char (c : char) : is_ascii_upper (lower_char c) = false.
Proof.
  unfold lower_char. destruct (is_ascii_upper c) eqn:E; [|exact E].
  unfold is_ascii_upper in *. apply andb_true_iff in E. destruct E as [A B].
  apply N.leb_le in A, B. apply andb_false_iff. right. apply N.leb_gt. lia.
Qed.

Lemma cleaned_nil : cleaned [].
Proof.
  unfold cleaned. split; [intros c []|].
  split; [intros [|? ?] ? ? ? H; discriminate|].
  split; [discriminate|]. intros [|? ?] ? H; discriminate.
Qed.

Lemma clean_for_matching_cleaned (text : str) : cleaned (_clean_for_matching text).
Proof.
  unfold _clean_for_matching.
  destruct text as [|t0 text']; [exact cleaned_nil|].
  set (text := t0 :: text').
  set (r1 := collapse_spaces false (remove_class markdown_chars text)).
  assert (S1 : spaced false (lower r1))
    by (apply lower_spaced, collapse_spaces_spaced).
  assert (S2 : spaced true (lstrip (lower r1))) by (eapply lstrip_spaced; eauto).
  destruct (rstrip_split (lstrip (lower r1))) as [ws [Hs [Hws Hlast]]].
  assert (S3 : spaced true (strip (lower r1))).
  { unfold strip. rewrite Hs in S2. eapply spaced_prefix; eauto. }
  split; [|split; [|split]].
  - intros c H. pose proof (strip_incl _ _ H) as H'.
    unfold lower in H'. apply in_map_iff in H'.
    destruct H' as [x [<- Hx]]. split; [|split].
    + rewrite markdown_lower_char.
      apply collapse_spaces_in in Hx. destruct Hx as [Hx | ->]; [|reflexivity].
      unfold remove_class in Hx. apply filter_In in Hx.
      now apply negb_true_iff.
    + apply upper_lower_char.
    + intros Hc. exact (spaced_space _ _ S3 _ H Hc).
  - intros pre a b post. exact (spaced_adjacent _ _ S3 pre a b post).
  - intros c t H. unfold strip in H. eapply rstrip_head; [|exact H].
    destruct (lstrip_split (lower r1)) as [w [_ [_ H3]]]. exact H3.
  - exact Hlast.
Qed.

Lemma filter_all (A : Type) (f : A -> bool) (l : list A) :
  (forall x, In x l -> f x = true) -> filter f l = l.
Proof.
  induction l as [|x l IH]; intros H; cbn [filter]; [reflexivity|].
  rewrite (H x (or_introl eq_refl)), IH; [reflexivity|].
  intros y Hy. apply H. now right.
Qed.

Lemma collapse_spaces_fixed (s : str) :
  forall b, spaced b s -> collapse_spaces b s = s.
Proof.
  induction s as [|c t IH]; intros b; cbn [spaced collapse_spaces]; [reflexivity|].
  destruct (is_space c).
  - intros [-> [-> H]]. now rewrite (IH true H).
  - intros H. now rewrite (IH false H).
Qed.

Lemma lstrip_fixed (s : str) :
  (forall c t, s = c :: t -> is_space c = false) -> lstrip s = s.
Proof.
  destruct s as [|c t]; intros H; cbn [lstrip]; [reflexivity|].
  now rewrite (H c t eq_refl).
Qed.

Lemma rstrip_fixed (s : str) :
  (forall t c, s = t ++ [c] -> is_space c = false) -> rstrip s = s.
Proof.
  intros H. unfold rstrip. rewrite lstrip_fixed; [apply rev_involutive|].
  intros c t Hr. apply (H (rev t) c).
  apply (f_equal (@rev char)) in Hr. rewrite rev_involutive in Hr.
  exact Hr.
Qed.

Lemma spaced_of_adjacent (s : str) :
  forall b,
  (forall c, In c s -> is_space c = true -> c = 32%N) ->
  (forall pre x y post, s = pre ++ x :: y :: post ->
                        is_space x = true -> is_space y = false) ->
  (b = true -> forall c t, s = c :: t -> is_space c = false) ->
  spaced b s.
Proof.
  induction s as [|c t IH]; intros b Hc Hadj Hb; cbn [spaced]; [exact I|].
  assert (Hc' : forall x, In x t -> is_space x = true -> x = 32%N)
    by (intros x Hx; apply Hc; now right).
  assert (Hadj' : forall pre x y post, t = pre ++ x :: y :: post ->
                                       is_space x = true -> is_space y = false).
  { intros pre x y post Heq. apply (Hadj (c :: pre) x y post).
    cbn [app]. now rewrite Heq. }
  destruct (is_space c) eqn:E.
  - split; [apply Hc; [now left | exact E]|]. split.
    + destruct b; [|reflexivity].
      rewrite (Hb eq_refl c t eq_refl) in E. discriminate.
    + apply IH; auto. intros _ y post ->. now apply (Hadj [] c y post).
  - apply IH; auto. discriminate.
Qed.

Lemma clean_for_matching_fixed (s : str) :
  cleaned s -> _clean_for_matching s = s.
Proof.
  intros [Hc [Hadj [Hhd Hlast]]]. unfold _clean_for_matching.
  destruct s as [|s0 s']; [reflexivity|]. set (s := s0 :: s') in *.
  unfold remove_class. rewrite filter_all.
  2:{ intros x Hx. apply negb_true_iff. now apply Hc. }
  rewrite collapse_spaces_fixed.
  2:{ apply spaced_of_adjacent; [intros c Hin; now apply Hc | exact Hadj
                                 | discriminate]. }
  replace (lower s) with s.
  2:{ unfold lower. symmetry. rewrite <- (map_id s) at 2. apply map_ext_in.
      intros c Hin. unfold lower_char.
      now rewrite (proj1 (proj2 (Hc c Hin))). }
  unfold strip. rewrite (lstrip_fixed s Hhd). now apply rstrip_fixed.
Qed.

End CleanFacts.

(** ** The loops over the claims of the slides *)

Section SlideFacts.
Import data_extractor content_writer citation_verifier main.

Variable float_pow : float -> float -> pynum.

Lemma same_sources_refl (a : CitationVerifier) : same_sources a a.
Proof. repeat split. Qed.

Lemma same_sources_trans (a b c : CitationVerifier) :
  same_sources a b -> same_sources b c -> same_sources a c.
Proof.
  unfold same_sources. intros [? [? [? [? ?]]]] [? [? [? [? ?]]]].
  repeat split; congruence.
Qed.

Lemma record_sources (self : CitationVerifier) (new : list Citation) :
  same_sources self (fold_left record new self)
  /\ citation_verifier.citations (fold_left record new self)
     = citation_verifier.citations self ++ new.
Proof.
  revert self. induction new as [|c new IH]; intros self; cbn [fold_left].
  - split; [apply same_sources_refl | now rewrite app_nil_r].
  - destruct (IH (record self c)) as [H1 H2]. split.
    + eapply same_sources_trans; [|exact H1]. repeat split.
    + rewrite H2. cbn. now rewrite <- app_assoc.
Qed.

(** The verification of a claim reads the sources only. *)
Lemma verify_claim_sources (a b : CitationVerifier) (slide : Z) (c context : str) :
  same_sources a b ->
  _verify_claim float_pow a slide c context
  = _verify_claim float_pow b slide c context.
Proof.
  intros [_ [Hl [He [Hw _]]]].
  unfold _verify_claim, _verify_calculated, check_cagr, check_margin,
    check_fy_value, _verify_web_data, _verify_onepager.
  now rewrite Hl, He, Hw.
Qed.

Lemma map_exc_ext {A B : Type} (f g : A -> Exc B) (l : list A) :
  (forall x, In x l -> f x = g x) -> map_exc f l = map_exc g l.
Proof.
  induction l as [|x l IH]; intros H; cbn [map_exc]; [reflexivity|].
  rewrite (H x (or_introl eq_refl)), IH; [reflexivity|].
  intros y Hy. apply H. now right.
Qed.

Lemma map_exc_app {A B : Type} (f : A -> Exc B) (l1 l2 : list A) :
  map_exc f (l1 ++ l2)
  = (a <- map_exc f l1 ;; b <- map_exc f l2 ;; Ok (a ++ b)).
Proof.
  induction l1 as [|x l1 IH]; cbn [app map_exc].
  - destruct (map_exc f l2); reflexivity.
  - destruct (f x) as [y|e]; cbn [bind]; [|reflexivity].
    rewrite IH. destruct (map_exc f l1) as [a|e]; cbn [bind]; [|reflexivity].
    destruct (map_exc f l2) as [b|e]; reflexivity.
Qed.

Lemma map_exc_map {A B C : Type} (f : B -> Exc C) (g : A -> B) (l : list A) :
  map_exc f (map g l) = map_exc (fun x => f (g x)) l.
Proof.
  induction l as [|x l IH]; cbn [map map_exc]; [reflexivity|].
  now rewrite IH.
Qed.

Lemma map_exc_total {A B : Type} (f : A -> Exc B) (l : list A) :
  (forall x, In x l -> exists y, f x = Ok y) -> exists ys, map_exc f l = Ok ys.
Proof.
  induction l as [|x l IH]; intros H; cbn [map_exc]; [now exists []|].
  destruct (H x (or_introl eq_refl)) as [y ->].
  destruct IH as [ys ->]; [intros z Hz; apply H; now right|].
  now exists (y :: ys).
Qed.

Lemma verify_items_eq (items : list str) (slide : Z) (context : str) :
  forall self acc,
  verify_items float_pow self slide items context acc
  = (new <- map_exc (fun item => _verify_claim float_pow self slide item context)
                    items ;;
     Ok (acc ++ new, fold_left record new self)).
Proof.
  induction items as [|item rest IH]; intros self acc; cbn [verify_items map_exc].
  - cbn [bind fold_left]. now rewrite app_nil_r.
  - destruct (_verify_claim float_pow self slide item context) as [cit|e];
      cbn [bind]; [|reflexivity].
    rewrite IH.
    rewrite (map_exc_ext
               (fun item0 => _verify_claim float_pow (record self cit) slide item0 context)
               (fun item0 => _verify_claim float_pow self slide item0 context)).
    2:{ intros x _. apply verify_claim_sources. repeat split. }
    destruct (map_exc _ rest) as [new|e]; cbn [bind fold_left]; [|reflexivity].
    now rewrite <- app_assoc.
Qed.

Lemma verify_sections_eq (secs : Dict.t str (list str)) (slide : Z) :
  forall self acc,
  verify_sections float_pow self slide secs acc
  = (new <- map_exc (fun ic => _verify_claim float_pow self slide (fst ic) (snd ic))
              (flat_map (fun sec => map (fun item => (item, fst sec)) (snd sec))
                        secs) ;;
     Ok (acc ++ new, fold_left record new self)).
Proof.
  induction secs as [|[name items] rest IH]; intros self acc;
    cbn [verify_sections flat_map map_exc fst snd].
  - cbn [bind fold_left]. now rewrite app_nil_r.
  - rewrite verify_items_eq, map_exc_app, map_exc_map. cbn [fst snd].
    destruct (map_exc _ items) as [new1|e]; cbn [bind fst snd]; [|reflexivity].
    rewrite IH.
    rewrite (map_exc_ext
               (fun ic => _verify_claim float_pow (fold_left record new1 self) slide
                            (fst ic) (snd ic))
               (fun ic => _verify_claim float_pow self slide (fst ic) (snd ic))).
    2:{ intros x _. symmetry. apply verify_claim_sources, record_sources. }
    destruct (map_exc _ (flat_map _ rest)) as [new2|e]; cbn [bind]; [|reflexivity].
    now rewrite fold_left_app, <- app_assoc.
Qed.

Lemma verify_slide_content_eq (self : CitationVerifier) (slide : Z)
  (s : SlideContent) :
  verify_slide_content float_pow self slide s
  = (new <- map_exc (fun ic => _verify_claim float_pow self slide (fst ic) (snd ic))
                    (slide_claims s) ;;
     Ok (new, fold_left record new self)).
Proof.
  unfold verify_slide_content, slide_claims, hook_items.
  rewrite verify_sections_eq, map_exc_app. cbn [app].
  destruct (map_exc _ (flat_map _ (sections s))) as [new1|e]; cbn [bind fst snd];
    [|reflexivity].
  destruct (hooks s) as [[|h hs]|]; cbn [map map_exc bind];
    try (now rewrite app_nil_r).
  rewrite verify_items_eq, map_exc_map. cbn [map_exc fst snd].
  rewrite (map_exc_ext
             (fun item => _verify_claim float_pow (fold_left record new1 self) slide
                            item (u "Investment Hook"))
             (fun item => _verify_claim float_pow self slide item (u "Investment Hook"))).
  2:{ intros x _. symmetry. apply verify_claim_sources, record_sources. }
  rewrite (verify_claim_sources (fold_left record new1 self) self).
  2:{ destruct (record_sources self new1) as [[? [? [? [? ?]]]] _].
      repeat split; congruence. }
  destruct (_verify_claim float_pow self slide h (u "Investment Hook")) as [c|e];
    cbn [bind]; [|reflexivity].
  destruct (map_exc _ hs) as [new2|e]; cbn [bind]; [|reflexivity].
  now rewrite fold_left_app.
Qed.

Lemma verify_slides_eq (slides : list SlideContent) :
  forall verifier i acc,
  verify_slides float_pow verifier i slides acc
  = (new <- map_exc (fun nic => _verify_claim float_pow verifier (fst nic)
                                  (fst (snd nic)) (snd (snd nic)))
                    (deck_claims i slides) ;;
     Ok (acc ++ new, fold_left record new verifier)).
Proof.
  induction slides as [|s rest IH]; intros verifier i acc;
    cbn [verify_slides deck_claims map_exc].
  - cbn [bind fold_left]. now rewrite app_nil_r.
  - rewrite verify_slide_content_eq, map_exc_app, map_exc_map. cbn [fst snd].
    destruct (map_exc _ (slide_claims s)) as [new1|e]; cbn [bind fst snd];
      [|reflexivity].
    rewrite IH.
    rewrite (map_exc_ext
               (fun nic => _verify_claim float_pow (fold_left record new1 verifier)
                             (fst nic) (fst (snd nic)) (snd (snd nic)))
               (fun nic => _verify_claim float_pow verifier
                             (fst nic) (fst (snd nic)) (snd (snd nic)))).
    2:{ intros x _. symmetry. apply verify_claim_sources, record_sources. }
    destruct (map_exc _ (deck_claims (i + 1) rest)) as [new2|e]; cbn [bind];
      [|reflexivity].
    now rewrite fold_left_app, <- app_assoc.
Qed.

(** A citation returned for a claim is well formed. *)
Lemma verify_claim_ok (self : CitationVerifier) (slide : Z) (c context : str)
  (cit : Citation) :
  _verify_claim float_pow self slide c context = Ok cit -> well_formed slide c cit.
Proof.
  unfold _verify_claim.
  destruct c as [|c0 c'].
  { intros [= <-]. apply unverified_well_formed. discriminate. }
  destruct (len (strip (c0 :: c')) <? 3).
  { intros [= <-]. apply unverified_well_formed. discriminate. }
  destruct (_is_calculated_claim (c0 :: c')).
  - pose proof (verify_calculated_result float_pow self slide (c0 :: c') context) as H.
    intros E. now rewrite E in H.
  - destruct (_is_web_claim (c0 :: c')); intros [= <-].
    + apply verify_web_data_well_formed.
    + apply verify_onepager_well_formed.
Qed.

Lemma Forall2_in_left {A B : Type} (R : A -> B -> Prop) (l1 : list A)
  (l2 : list B) (x : A) :
  Forall2 R l1 l2 -> In x l1 -> exists y, In y l2 /\ R x y.
Proof.
  induction 1 as [|a b l1 l2 Hab _ IH]; [intros []|].
  intros [-> | Hin]; [exists b; split; [now left | exact Hab]|].
  destruct (IH Hin) as [y [Hy HR]]. exists y. split; [now right | exact HR].
Qed.

Lemma get_some_in {V : Type} (d : Dict.t str V) (k : str) (v : V) :
  str_get d k = Some v -> In (k, v) d.
Proof.
  induction d as [|[k0 v0] d IH]; cbn [Dict.get]; [discriminate|].
  destruct (str_eqb k0 k) eqn:E.
  - apply str_eqb_eq in E. intros [= ->]. left. now subst.
  - intros H. right. now apply IH.
Qed.

Lemma section_item_claim (s : SlideContent) (name item : str) :
  In item (section_items s name) -> In (item, name) (slide_claims s).
Proof.
  unfold section_items, slide_claims. intros H. apply in_or_app. left.
  destruct (str_get (sections s) name) as [items|] eqn:G; [|destruct H].
  apply get_some_in in G. apply in_flat_map.
  exists (name, items). split; [exact G|]. cbn [fst snd].
  apply in_map_iff. now exists item.
Qed.

Lemma hook_item_claim (s : SlideContent) (hook : str) :
  In hook (hook_items s) -> In (hook, u "Investment Hook") (slide_claims s).
Proof.
  unfold slide_claims. intros H. apply in_or_app. right.
  apply in_map_iff. now exists hook.
Qed.

Lemma deck_claim_at (slides : list SlideContent) :
  forall i k s ic,
  nth_error slides k = Some s -> In ic (slide_claims s) ->
  In ((i + Z.of_nat k)%Z, ic) (deck_claims i slides).
Proof.
  induction slides as [|s0 rest IH]; intros i k s ic Hk Hin.
  - destruct k; discriminate.
  - cbn [deck_claims]. apply in_or_app. destruct k as [|k]; cbn [nth_error] in Hk.
    + injection Hk as ->. left. rewrite Z.add_0_r. now apply in_map.
    + right. replace (i + Z.of_nat (S k))%Z with (i + 1 + Z.of_nat k)%Z by lia.
      eapply IH; eauto.
Qed.

End SlideFacts.

(** ** The citation report *)

Section ReportFacts.
Import citation_verifier.

Lemma str_set_keys {V : Type} (d : Dict.t str V) (k : str) (v : V) :
  Dict.keys (Dict.set str_eqb d k v)
  = if Dict.mem str_eqb d k then Dict.keys d else Dict.keys d ++ [k].
Proof.
  unfold Dict.mem, Dict.keys.
  induction d as [|[k0 v0] d IH]; cbn [Dict.set map existsb fst]; [reflexivity|].
  destruct (str_eqb k0 k) eqn:E; cbn [map fst orb]; [reflexivity|].
  rewrite IH. now destruct (existsb _ (map fst d)).
Qed.

Lemma mem_false_not_key {V : Type} (d : Dict.t str V) (k : str) :
  Dict.mem str_eqb d k = false -> ~ In k (Dict.keys d).
Proof.
  unfold Dict.mem. intros H Hin.
  assert (E : existsb (fun k' => str_eqb k' k) (Dict.keys d) = true).
  { apply existsb_exists. exists k. split; [exact Hin | apply str_eqb_refl]. }
  congruence.
Qed.

Lemma str_set_keeps_wf {V : Type} (d : Dict.t str V) (k : str) (v : V) :
  Dict.wf d -> Dict.wf (Dict.set str_eqb d k v).
Proof.
  unfold Dict.wf. rewrite str_set_keys.
  destruct (Dict.mem str_eqb d k) eqn:E; [auto|].
  intros H. apply NoDup_app; [exact H | repeat constructor; intros [] |].
  intros x Hx [Hk | []]. subst x. now apply (mem_false_not_key d k).
Qed.

Lemma count_of_set (d : Dict.t str nat) (k k' : str) (n : nat) :
  count_of (Dict.set str_eqb d k n) k'
  = if str_eqb k k' then n else count_of d k'.
Proof.
  unfold count_of. destruct (str_eqb k k') eqn:E.
  - apply str_eqb_eq in E. subst k'. now rewrite get_set_same.
  - rewrite get_set_other; [reflexivity|].
    intros ->. now rewrite str_eqb_refl in E.
Qed.

Lemma sum_set (d : Dict.t str nat) (k : str) :
  list_sum (map snd (Dict.set str_eqb d k (count_of d k + 1)))
  = list_sum (map snd d) + 1.
Proof.
  unfold count_of, list_sum.
  induction d as [|[k0 v0] d IH]; cbn [Dict.set Dict.get map snd fold_right];
    [reflexivity|].
  destruct (str_eqb k0 k); cbn [map snd fold_right]; cbv iota; [lia|].
  rewrite IH. lia.
Qed.

(** The counts by kind, from any counts so far. *)
Lemma count_types_from (cits : list Citation) :
  forall acc,
  Dict.wf acc ->
  let d := fold_left
             (fun by_type c =>
                Dict.set str_eqb by_type (source_type c)
                  (match str_get by_type (source_type c) with
                   | Some n => n
                   | None => 0
                   end + 1))
             cits acc in
  Dict.wf d
  /\ (forall kind, count_of d kind = count_of acc kind + cited_as kind cits)
  /\ list_sum (map snd d) = list_sum (map snd acc) + List.length cits
  /\ (forall kind, In kind (Dict.keys d) ->
        In kind (Dict.keys acc) \/ 0 < cited_as kind cits).
Proof.
  induction cits as [|c cits IH]; intros acc Hwf; cbn [fold_left].
  - unfold cited_as. cbn. repeat split; auto.
  - fold (count_of acc (source_type c)).
    destruct (IH (Dict.set str_eqb acc (source_type c)
                    (count_of acc (source_type c) + 1))
                 (str_set_keeps_wf _ _ _ Hwf)) as [H1 [H2 [H3 H4]]].
    split; [exact H1|]. split; [|split].
    + intros kind. rewrite H2, count_of_set. unfold cited_as. cbn [filter].
      destruct (str_eqb (source_type c) kind) eqn:E; cbn [List.length]; [|lia].
      apply str_eqb_eq in E. subst kind. lia.
    + rewrite H3, sum_set. cbn [List.length]. lia.
    + intros kind Hin. destruct (H4 kind Hin) as [Hk | Hk].
      * rewrite str_set_keys in Hk. unfold cited_as. cbn [filter].
        destruct (Dict.mem str_eqb acc (source_type c)); [now left|].
        apply in_app_or in Hk. destruct Hk as [Hk | [<- | []]]; [now left|].
        right. rewrite str_eqb_refl. cbn. lia.
      * right. unfold cited_as in *. cbn [filter].
        destruct (str_eqb (source_type c) kind); cbn [List.length]; lia.
Qed.

Lemma filter_partition {A : Type} (f : A -> bool) (l : list A) :
  List.length (filter f l) + List.length (filter (fun x => negb (f x)) l)
  = List.length l.
Proof.
  induction l as [|x l IH]; cbn [filter]; [reflexivity|].
  destruct (f x); cbn [negb List.length]; lia.
Qed.

Lemma unverified_count (cits : list Citation) :
  Forall kind_agrees cits ->
  List.length (filter (fun c => negb (verified c)) cits)
  = cited_as (u "unverified") cits.
Proof.
  unfold cited_as. induction 1 as [|c cits Hc _ IH]; cbn [filter]; [reflexivity|].
  destruct (verified c) eqn:V; cbn [negb].
  - destruct (str_eqb (source_type c) (u "unverified")) eqn:E; [|exact IH].
    apply str_eqb_eq in E. apply Hc in E. congruence.
  - rewrite (proj1 Hc V), str_eqb_refl. cbn [List.length]. now rewrite IH.
Qed.


End ReportFacts.

(** ** The document check of the verifier *)

Section OnepagerFacts.
Import data_extractor citation_verifier.

Lemma line_step_match (cc : str) (st : best) (n : nat) (line : str) :
  line_step cc st n line = st
  \/ (fst (line_step cc st n line) = Some (n, line)
      /\ (str_in cc (_clean_for_matching line) = true
          \/ str_in (_clean_for_matching line) cc = true
          \/ (2 < List.length (distinct (split_ws cc))
              /\ gt (word_overlap cc (_clean_for_matching line)) 0.5 = true))).
Proof.
  unfold line_step.
  set (cl := _clean_for_matching line).
  fold (word_overlap cc cl).
  destruct (2 <? List.length (distinct (split_ws cc))) eqn:W.
  - apply Nat.ltb_lt in W.
    destruct (str_in cc cl || str_in cl cc) eqn:D.
    + apply orb_true_iff in D.
      destruct (gt _ (snd st)) eqn:G1; cbn [snd].
      * destruct (gt (word_overlap cc cl) 0.5 && gt (word_overlap cc cl) _);
          right; (split; [reflexivity | tauto]).
      * destruct (gt (word_overlap cc cl) 0.5 && gt (word_overlap cc cl) (snd st))
          eqn:G2; [right | now left].
        apply andb_true_iff in G2. split; [reflexivity | tauto].
    + destruct (gt (word_overlap cc cl) 0.5 && gt (word_overlap cc cl) (snd st))
        eqn:G2; [right | now left].
      apply andb_true_iff in G2. split; [reflexivity | tauto].
  - destruct (str_in cc cl || str_in cl cc) eqn:D; [|now left].
    apply orb_true_iff in D.
    destruct (gt _ (snd st)); [right | now left].
    split; [reflexivity | tauto].
Qed.

Lemma scan_lines_match (cc : str) (lines : list str) :
  forall st start,
  fst (scan_lines cc st start lines) = fst st
  \/ exists n line,
       fst (scan_lines cc st start lines) = Some (n, line)
       /\ start <= n /\ nth_error lines (n - start) = Some line
       /\ (str_in cc (_clean_for_matching line) = true
           \/ str_in (_clean_for_matching line) cc = true
           \/ (2 < List.length (distinct (split_ws cc))
               /\ gt (word_overlap cc (_clean_for_matching line)) 0.5 = true)).
Proof.
  induction lines as [|line rest IH]; intros st start; cbn [scan_lines];
    [now left|].
  destruct (IH (line_step cc st start line) (S start)) as [H | [n [l [H1 [H2 [H3 H4]]]]]].
  - destruct (line_step_match cc st start line) as [E | [E M]].
    + left. now rewrite H, E.
    + right. exists start, line. rewrite H, E, Nat.sub_diag. auto.
  - right. exists n, l. split; [exact H1|]. split; [lia|].
    split; [|exact H4].
    replace (n - start) with (S (n - S start)) by lia. exact H3.
Qed.

Lemma check_fields_match (cc : str) (fs : list (str * pyval)) (slide : Z)
  (c : str) (cit : Citation) :
  check_fields cc fs slide c = Some cit ->
  exists name value,
    In (name, VStr value) fs
    /\ cit = cited slide c "onepager" (u "Field: " ++ name) (Some (VStr value))
    /\ (str_in cc (_clean_for_matching value) = true
        \/ str_in (_clean_for_matching value) cc = true).
Proof.
  induction fs as [|[name v] fs IH]; cbn [check_fields]; [discriminate|].
  assert (Hrest : check_fields cc fs slide c = Some cit ->
                  exists name0 value,
                    In (name0, VStr value) ((name, v) :: fs)
                    /\ cit = cited slide c "onepager" (u "Field: " ++ name0)
                               (Some (VStr value))
                    /\ (str_in cc (_clean_for_matching value) = true
                        \/ str_in (_clean_for_matching value) cc = true)).
  { intros H. destruct (IH H) as [n0 [v0 [Hin Hr]]].
    exists n0, v0. split; [now right | exact Hr]. }
  destruct v; try exact Hrest.
  destruct (str_in cc (_clean_for_matching s) || str_in (_clean_for_matching s) cc)
    eqn:D; [|exact Hrest].
  intros [= <-]. exists name, s. apply orb_true_iff in D.
  split; [now left | auto].
Qed.

End OnepagerFacts.

(** ** The order of the floats *)

Section FloatOrder.

Lemma SFcompare_lt_trans (a b c : spec_float) :
  SFcompare a b = Some Lt -> SFcompare b c = Some Lt -> SFcompare a c = Some Lt.
Proof.
  destruct a as [sa| sa| |sa ma ea], b as [sb| sb| |sb mb eb],
           c as [sc| sc| |sc mc ec]; cbn [SFcompare];
    try discriminate; try reflexivity;
    repeat match goal with s : bool |- _ => destruct s end;
    try discriminate; try reflexivity.
  all: rewrite ?Pos.compare_cont_spec; cbn [Pos.switch_Eq].
  all: destruct (Z.compare_spec ea eb), (Z.compare_spec eb ec),
         (Z.compare_spec ea ec);
       try discriminate; try reflexivity; try lia; subst.
  all: destruct (Pos.compare_spec ma mb), (Pos.compare_spec mb mc),
         (Pos.compare_spec ma mc);
       cbn [CompOpp]; try discriminate; try reflexivity; try lia.
Qed.

Lemma SFcompare_lt_eq (a b c : spec_float) :
  SFcompare a b = Some Lt -> SFcompare b c = Some Eq -> SFcompare a c = Some Lt.
Proof.
  destruct a as [sa| sa| |sa ma ea], b as [sb| sb| |sb mb eb],
           c as [sc| sc| |sc mc ec]; cbn [SFcompare];
    try discriminate; try reflexivity;
    repeat match goal with s : bool |- _ => destruct s end;
    try discriminate; try reflexivity.
  all: rewrite ?Pos.compare_cont_spec; cbn [Pos.switch_Eq].
  all: destruct (Z.compare_spec ea eb), (Z.compare_spec eb ec),
         (Z.compare_spec ea ec);
       try discriminate; try reflexivity; try lia; subst.
  all: destruct (Pos.compare_spec ma mb), (Pos.compare_spec mb mc),
         (Pos.compare_spec ma mc);
       cbn [CompOpp]; try discriminate; try reflexivity; try lia.
Qed.

Lemma ltb_trans (a b c : float) :
  ltb a b = true -> ltb b c = true -> ltb a c = true.
Proof.
  rewrite !ltb_spec. unfold SFltb.
  destruct (SFcompare (Prim2SF a) (Prim2SF b)) as [[| |]|] eqn:E1; try discriminate.
  destruct (SFcompare (Prim2SF b) (Prim2SF c)) as [[| |]|] eqn:E2; try discriminate.
  now rewrite (SFcompare_lt_trans _ _ _ E1 E2).
Qed.

(** A float that exceeds another is comparable: what does not exceed it is
    below whatever it is below. *)
Lemma ltb_below (c s v p : float) :
  ltb c s = true -> ltb v s = false -> ltb p v = true -> ltb c v = true.
Proof.
  rewrite !ltb_spec. unfold SFltb. intros Hcs Hvs Hpv.
  destruct (SFcompare (Prim2SF c) (Prim2SF s)) as [[| |]|] eqn:E1; try discriminate.
  pose proof (SFcompare_antisym (Prim2SF v) (Prim2SF s)) as A.
  destruct (SFcompare (Prim2SF v) (Prim2SF s)) as [[| |]|] eqn:E2;
    try discriminate; cbn in A.
  - now rewrite (SFcompare_lt_eq _ _ _ E1 A).
  - now rewrite (SFcompare_lt_trans _ _ _ E1 A).
  - exfalso. clear - E2 E1 Hpv.
    destruct (Prim2SF v) as [sv| sv| |sv mv ev],
             (Prim2SF s) as [ss| ss| |ss ms es],
             (Prim2SF p) as [sp| sp| |sp mp ep],
             (Prim2SF c) as [sc| sc| |sc mc ec];
      cbn [SFcompare] in *;
      repeat match goal with b : bool |- _ => destruct b end;
      discriminate.
Qed.

Lemma blank_score (L : nat) :
  1 <= L <= 4096 -> gt (float_of_nat L / float_of_nat 1) f0_3 = true.
Proof.
  intros HL.
  assert (H : forallb (fun n => gt (float_of_nat n / float_of_nat 1) f0_3)
                      (seq 1 4096) = true) by (vm_compute; reflexivity).
  rewrite forallb_forall in H. apply H. apply in_seq. lia.
Qed.

End FloatOrder.

(** ** Lines that clean to nothing *)

Section BlankFacts.
Import data_extractor citation_verifier.

Lemma line_step_reached (cc : str) (st : best) (n : nat) (line : str) :
  reached st -> reached (line_step cc st n line).
Proof.
  intros R. unfold line_step.
  set (cl := _clean_for_matching line).
  set (score := (float_of_nat (len cc) / float_of_nat (Nat.max (len cl) 1))%float).
  set (st1 := if str_in cc cl || str_in cl cc
              then if gt score (snd st) then (Some (n, line), score) else st
              else st).
  assert (R1 : reached st1).
  { subst st1. destruct (str_in cc cl || str_in cl cc); [|exact R].
    destruct (gt score (snd st)) eqn:G; [|exact R].
    right. cbn [fst snd]. split; [discriminate|]. now exists (snd st). }
  destruct (2 <? _); [|exact R1].
  match goal with
  | |- reached (if gt ?o 0.5 && gt ?o (snd st1) then _ else _) =>
    destruct (gt o 0.5); cbn [andb]; [|exact R1];
    destruct (gt o (snd st1)) eqn:G; [|exact R1]
  end.
  right. cbn [fst snd]. split; [discriminate|]. now exists (snd st1).
Qed.

Lemma line_step_settled (cc : str) (st : best) (n : nat) (line : str) :
  settled st -> settled (line_step cc st n line).
Proof.
  intros S. unfold line_step.
  set (cl := _clean_for_matching line).
  set (score := (float_of_nat (len cc) / float_of_nat (Nat.max (len cl) 1))%float).
  set (st1 := if str_in cc cl || str_in cl cc
              then if gt score (snd st) then (Some (n, line), score) else st
              else st).
  assert (S1 : settled st1).
  { subst st1. destruct (str_in cc cl || str_in cl cc); [|exact S].
    destruct (gt score (snd st)) eqn:G; [|exact S].
    split; cbn [fst snd]; [discriminate|].
    destruct S as [_ S]. unfold gt in *. eapply ltb_trans; eauto. }
  destruct (2 <? _); [|exact S1].
  match goal with
  | |- settled (if gt ?o 0.5 && gt ?o (snd st1) then _ else _) =>
    destruct (gt o 0.5); cbn [andb]; [|exact S1];
    destruct (gt o (snd st1)) eqn:G; [|exact S1]
  end.
  split; cbn [fst snd]; [discriminate|].
  destruct S1 as [_ S1]. unfold gt in *. eapply ltb_trans; eauto.
Qed.

(** A line that cleans to nothing settles the scan. *)
Lemma line_step_blank (cc : str) (st : best) (n : nat) (line : str) :
  reached st -> _clean_for_matching line = [] ->
  1 <= len cc <= 4096 ->
  settled (line_step cc st n line).
Proof.
  intros R Hline Hlen.
  pose proof (blank_score (len cc) Hlen) as F1.
  assert (F0 : gt (float_of_nat (len cc) / float_of_nat 1) zero = true).
  { unfold gt in *. eapply ltb_trans; [|exact F1]. reflexivity. }
  unfold line_step. rewrite Hline.
  replace (str_in cc [] || str_in [] cc) with true
    by (destruct cc; cbn; now rewrite ?orb_true_r).
  change (Nat.max (len []) 1) with 1.
  set (score := (float_of_nat (len cc) / float_of_nat 1)%float) in *.
  set (st1 := if gt score (snd st) then (Some (n, line), score) else st).
  assert (S1 : settled st1).
  { subst st1. destruct (gt score (snd st)) eqn:G.
    - split; [discriminate | exact F1].
    - destruct R as [[Hn Hz] | [Hs [p Hp]]].
      + rewrite Hz in G. congruence.
      + split; [exact Hs|]. unfold gt in *. eapply ltb_below; eauto. }
  destruct (2 <? _); [|exact S1].
  match goal with
  | |- settled (if gt ?o 0.5 && gt ?o (snd st1) then _ else _) =>
    destruct (gt o 0.5); cbn [andb]; [|exact S1];
    destruct (gt o (snd st1)) eqn:G; [|exact S1]
  end.
  split; cbn [fst snd]; [discriminate|].
  destruct S1 as [_ S1]. unfold gt in *. eapply ltb_trans; eauto.
Qed.

Lemma scan_lines_reached (cc : str) (lines : list str) :
  forall st n, reached st -> reached (scan_lines cc st n lines).
Proof.
  induction lines as [|l lines IH]; intros st n R; cbn [scan_lines]; [exact R|].
  apply IH. now apply line_step_reached.
Qed.

Lemma scan_lines_settled (cc : str) (lines : list str) :
  forall st n, settled st -> settled (scan_lines cc st n lines).
Proof.
  induction lines as [|l lines IH]; intros st n S; cbn [scan_lines]; [exact S|].
  apply IH. now apply line_step_settled.
Qed.

Lemma scan_lines_app (cc : str) (l1 l2 : list str) :
  forall st n,
  scan_lines cc st n (l1 ++ l2)
  = scan_lines cc (scan_lines cc st n l1) (n + List.length l1) l2.
Proof.
  induction l1 as [|l l1 IH]; intros st n; cbn [app scan_lines List.length].
  - now rewrite Nat.add_0_r.
  - rewrite IH. f_equal. lia.
Qed.

Lemma scan_lines_blank (cc : str) (lines : list str) (line : str) :
  In line lines -> _clean_for_matching line = [] -> 1 <= len cc <= 4096 ->
  settled (scan_lines cc (None, zero) 1 lines).
Proof.
  intros Hin Hline Hlen. apply in_split in Hin. destruct Hin as [l1 [l2 ->]].
  rewrite scan_lines_app. cbn [scan_lines].
  apply scan_lines_settled, line_step_blank; auto.
  apply scan_lines_reached. left. auto.
Qed.

End BlankFacts.

(** ** The validation of the extracted data *)

Section ValidateFacts.
Import data_extractor.

Lemma existsb_issue (f : str -> bool) (missing : bool) (message : string) :
  existsb f (issue missing message) = missing && f (u message).
Proof. destruct missing; cbn; [now rewrite orb_false_r | reflexivity]. Qed.

Lemma issue_nil (missing : bool) (message : string) :
  issue missing message = [] <-> missing = false.
Proof. destruct missing; cbn; split; congruence. Qed.

Lemma in_issue (x : str) (missing : bool) (message : string) :
  In x (issue missing message) <-> missing = true /\ x = u message.
Proof.
  destruct missing; cbn; split; try tauto.
  - intros [<- | []]. auto.
  - intros [_ ->]. now left.
  - intros [H _]. discriminate.
Qed.

Lemma length_zero {A : Type} (l : list A) :
  (List.length l =? 0) = false <-> l <> [].
Proof. destruct l; cbn; split; congruence. Qed.

Lemma length_zero_true {A : Type} (l : list A) :
  (List.length l =? 0) = true <-> l = [].
Proof. destruct l; cbn; split; congruence. Qed.

End ValidateFacts.

(** ** Sorted years *)

Section LatestFacts.
Import data_extractor.

Lemma insert_sorted_ascending (y : Z) (l : list Z) :
  ascending l -> ascending (insert_sorted y l).
Proof.
  induction l as [|x r IH]; cbn [insert_sorted ascending].
  - intros _. split; [intros ? []|exact I].
  - intros [Hx Hr]. destruct (Z.leb_spec y x); cbn [ascending].
    + split; [|split; assumption].
      intros z [<- | Hz]; [lia|]. specialize (Hx z Hz). lia.
    + split; [|now apply IH].
      intros z Hz. apply insert_sorted_in in Hz. destruct Hz as [-> | Hz]; [lia|].
      now apply Hx.
Qed.

Lemma sorted_ascending (l : list Z) : ascending (sorted l).
Proof.
  induction l as [|x l IH]; cbn; [exact I|].
  now apply insert_sorted_ascending.
Qed.

Lemma insert_sorted_last (y : Z) (l : list Z) :
  (forall x, In x l -> (x < y)%Z) -> insert_sorted y l = l ++ [y].
Proof.
  induction l as [|x r IH]; intros H; cbn [insert_sorted app]; [reflexivity|].
  destruct (Z.leb_spec y x).
  - specialize (H x (or_introl eq_refl)). lia.
  - rewrite IH; [reflexivity|]. intros z Hz. apply H. now right.
Qed.

(** Sorting the reverse of an ascending list without repetition gives the
    list back. *)
Lemma sorted_rev (l : list Z) :
  ascending l -> NoDup l -> sorted (rev l) = l.
Proof.
  induction l as [|x r IH] using rev_ind; [reflexivity|].
  intros Ha Hn. rewrite rev_app_distr. cbn [rev app sorted fold_right].
  fold (sorted (rev r)).
  assert (Har : ascending r /\ forall z, In z r -> (z < x)%Z).
  { clear IH. induction r as [|a r IHr]; cbn [app ascending] in *.
    - split; [exact I | intros ? []].
    - destruct Ha as [Ha1 Ha2]. inversion Hn as [|? ? Hnot Hn']; subst.
      destruct (IHr Ha2 Hn') as [H1 H2]. split.
      + split; [|exact H1]. intros y Hy. apply Ha1. apply in_or_app. now left.
      + intros z [<- | Hz]; [|now apply H2].
        assert (a <= x)%Z by (apply Ha1, in_or_app; right; now left).
        assert (a <> x); [|lia].
        intros ->. apply Hnot. apply in_or_app. right. now left. }
  destruct Har as [Har Hlt].
  rewrite IH; [|exact Har|].
  - now apply insert_sorted_last.
  - rewrite <- (app_nil_r r). apply NoDup_remove_1 with (a := x). exact Hn.
Qed.

Lemma ascending_skipn (k : nat) (l : list Z) : ascending l -> ascending (skipn k l).
Proof.
  revert l. induction k as [|k IH]; intros l; [auto|].
  destruct l as [|x r]; cbn [skipn ascending]; [auto|].
  intros [_ H]. now apply IH.
Qed.

Lemma NoDup_skipn {A : Type} (k : nat) (l : list A) : NoDup l -> NoDup (skipn k l).
Proof.
  revert l. induction k as [|k IH]; intros l; [auto|].
  destruct l as [|x r]; cbn [skipn]; [auto|].
  intros H. inversion H; subst. now apply IH.
Qed.

Lemma insert_sorted_NoDup (y : Z) (l : list Z) :
  ~ In y l -> NoDup l -> NoDup (insert_sorted y l).
Proof.
  induction l as [|x r IH]; cbn [insert_sorted]; intros Hy Hn.
  - repeat constructor. intros [].
  - destruct (y <=? x)%Z; [now constructor|].
    inversion Hn as [|? ? Hx Hr]; subst. constructor.
    + rewrite insert_sorted_in. intros [-> | H]; [apply Hy; now left | tauto].
    + apply IH; [|exact Hr]. intros H. apply Hy. now right.
Qed.

Lemma sorted_NoDup (l : list Z) : NoDup l -> NoDup (sorted l).
Proof.
  induction l as [|x l IH]; cbn; intros H; [constructor|].
  inversion H; subst. apply insert_sorted_NoDup; [|auto].
  now rewrite sorted_in.
Qed.

(** [restrict] on years that are keys, all different: the entries of the
    years, in order. *)
Lemma restrict_keys (d : series) (years : list Z) :
  forall acc,
  (forall y, In y years -> In y (Dict.keys d)) ->
  NoDup (Dict.keys acc ++ years) ->
  exists r,
    restrict d years acc = Ok r
    /\ Dict.keys r = Dict.keys acc ++ years
    /\ (forall y, In y years -> year_get r y = year_get d y)
    /\ (forall y, ~ In y years -> year_get r y = year_get acc y).
Proof.
  induction years as [|y rest IH]; intros acc Hk Hn; cbn [restrict].
  - exists acc. rewrite app_nil_r. repeat split; auto. intros ? [].
  - destruct (key_in_get d y (Hk y (or_introl eq_refl))) as [v Hv].
    unfold getitem. rewrite Hv. cbn [bind].
    assert (Hy : ~ In y (Dict.keys acc)).
    { intros H. apply NoDup_remove_2 in Hn. apply Hn. apply in_or_app. now left. }
    assert (Hkeys : Dict.keys (Dict.set Z.eqb acc y v) = Dict.keys acc ++ [y]).
    { clear - Hy. unfold Dict.keys in *.
      induction acc as [|[k w] acc IHa]; cbn [Dict.set map fst app]; [reflexivity|].
      destruct (Z.eqb_spec k y) as [->|Hne].
      - exfalso. apply Hy. now left.
      - cbn [map fst]. rewrite IHa; [reflexivity|].
        intros H. apply Hy. now right. }
    destruct (IH (Dict.set Z.eqb acc y v)) as [r [H1 [H2 [H3 H4]]]].
    + intros z Hz. apply Hk. now right.
    + rewrite Hkeys, <- app_assoc. exact Hn.
    + exists r. split; [exact H1|]. split.
      * rewrite H2, Hkeys, <- app_assoc. reflexivity.
      * assert (Hrest : ~ In y rest).
        { intros H. apply NoDup_remove_2 in Hn. apply Hn. apply in_or_app. now right. }
        split.
        -- intros z [<- | Hz]; [|now apply H3].
           rewrite (H4 y Hrest), year_get_set_same. now symmetry.
        -- intros z Hz. rewrite H4; [|intros H; apply Hz; now right].
           apply year_get_set_other. intros ->. apply Hz. now left.
Qed.

Lemma ascending_app_lt (a b : list Z) :
  ascending (a ++ b) -> NoDup (a ++ b) ->
  forall z y, In z a -> In y b -> (z < y)%Z.
Proof.
  induction a as [|x a IH]; cbn [app ascending]; intros Ha Hn z y Hz Hy;
    [destruct Hz|].
  destruct Ha as [Hx Ha]. inversion Hn as [|? ? Hnot Hn']; subst.
  destruct Hz as [<- | Hz]; [|now apply IH].
  assert (x <= y)%Z by (apply Hx, in_or_app; now right).
  assert (x <> y); [|lia]. intros ->. apply Hnot, in_or_app. now right.
Qed.

End LatestFacts.

(** ** The shortening of the writer *)

Section ShortenFacts.
Import content_writer.

Lemma substring_refl (s : str) : Substring s s.
Proof. exists [], []. now rewrite app_nil_r. Qed.

Lemma substring_trans (a b c : str) : Substring a b -> Substring b c -> Substring a c.
Proof.
  intros [p1 [q1 ->]] [p2 [q2 ->]]. exists (p2 ++ p1), (q1 ++ q2).
  now rewrite <- !app_assoc.
Qed.

Lemma lstrip_char_split (ch : char) (s : str) :
  exists pre, s = pre ++ lstrip_char ch s.
Proof.
  induction s as [|c t [pre IH]]; cbn [lstrip_char]; [now exists []|].
  destruct (c =? ch)%N; [|now exists []].
  exists (c :: pre). cbn [app]. now rewrite <- IH.
Qed.

Lemma lstrip_char_head (ch : char) (s : str) (c : char) (t : str) :
  lstrip_char ch s = c :: t -> c <> ch.
Proof.
  induction s as [|x s IH]; cbn [lstrip_char]; [discriminate|].
  destruct (N.eqb_spec x ch); [exact IH|]. now intros [= <- _].
Qed.

Lemma rstrip_char_split (ch : char) (s : str) :
  exists post, s = rstrip_char ch s ++ post.
Proof.
  unfold rstrip_char. destruct (lstrip_char_split ch (rev s)) as [pre H].
  exists (rev pre). rewrite <- rev_app_distr, <- H. now rewrite rev_involutive.
Qed.

Lemma rstrip_char_last (ch : char) (s t : str) (c : char) :
  rstrip_char ch s = t ++ [c] -> c <> ch.
Proof.
  unfold rstrip_char. intros H. apply (f_equal (@rev char)) in H.
  rewrite rev_involutive, rev_app_distr in H. cbn [rev app] in H.
  now apply lstrip_char_head in H.
Qed.

Lemma strip_char_substring (ch : char) (s : str) : Substring (strip_char ch s) s.
Proof.
  unfold strip_char.
  destruct (rstrip_char_split ch (lstrip_char ch s)) as [post H].
  destruct (lstrip_char_split ch s) as [pre H'].
  exists pre, post. now rewrite <- H.
Qed.

Lemma strip_substring (s : str) : Substring (strip s) s.
Proof.
  unfold strip. destruct (rstrip_split (lstrip s)) as [post [H _]].
  destruct (lstrip_split s) as [pre [H' _]].
  exists pre, post. now rewrite <- H.
Qed.

Lemma strip_length (s : str) : len (strip s) <= len s.
Proof.
  destruct (strip_substring s) as [pre [post H]].
  apply (f_equal (@List.length char)) in H. unfold len. rewrite H.
  rewrite !length_app. lia.
Qed.

Lemma endswith_dot (s : str) :
  (forall t c, s = t ++ [c] -> c <> 46%N) ->
  endswith (u ".") s = false /\ endswith (u "..") s = false.
Proof.
  intros H. unfold endswith.
  destruct s as [|c0 s0] using rev_ind; [split; reflexivity|].
  rewrite rev_app_distr. cbn [rev app].
  specialize (H s0 c0 eq_refl).
  change (rev (u ".")) with [46%N]. change (rev (u "..")) with [46%N; 46%N].
  cbn [startswith]. destruct (N.eqb_spec 46 c0); [congruence|]. split; reflexivity.
Qed.

Lemma split_ws_aux_words (s : str) :
  forall cur, (forall c, In c cur -> is_space c = false) ->
  Forall is_a_word (split_ws_aux cur s).
Proof.
  induction s as [|c t IH]; intros cur Hcur; cbn [split_ws_aux].
  - destruct cur as [|x cur]; [constructor|].
    constructor; [|constructor]. split.
    + intros H. apply (f_equal (@List.length char)) in H.
      rewrite length_rev in H. discriminate.
    + intros y Hy. apply Hcur. now apply in_rev.
  - destruct (is_space c) eqn:E.
    + destruct cur as [|x cur]; [apply IH; intros ? []|].
      constructor; [|apply IH; intros ? []]. split.
      * intros H. apply (f_equal (@List.length char)) in H.
        rewrite length_rev in H. discriminate.
      * intros y Hy. apply Hcur. now apply in_rev.
    + apply IH. intros y [<- | Hy]; auto.
Qed.

Lemma split_ws_words (s : str) : Forall is_a_word (split_ws s).
Proof. apply split_ws_aux_words. intros ? []. Qed.

Lemma join_first (ws : list str) (c : char) (t : str) :
  Forall is_a_word ws -> join (u " ") ws = c :: t -> is_space c = false.
Proof.
  destruct ws as [|w ws]; cbn [join]; [discriminate|].
  intros H. inversion H as [|? ? [Hne Hw] _]; subst.
  destruct w as [|x w]; [congruence|].
  destruct ws; cbn [app]; intros [= <- _]; apply Hw; now left.
Qed.

Lemma join_last (ws : list str) :
  Forall is_a_word ws ->
  forall t c, join (u " ") ws = t ++ [c] -> is_space c = false.
Proof.
  induction ws as [|w ws IH]; intros H t c; cbn [join].
  - destruct t; discriminate.
  - inversion H as [|? ? [Hne Hw] Hws]; subst.
    destruct ws as [|w' ws].
    + intros ->. apply Hw. apply in_or_app. right. now left.
    + intros E. specialize (IH Hws).
      remember (join (u " ") (w' :: ws)) as j eqn:Ej.
      assert (Hj : j <> []).
      { subst j. inversion Hws as [|? ? [Hne' _] _]; subst.
        cbn [join]. destruct w'; [congruence|]. destruct ws; discriminate. }
      destruct (exists_last Hj) as [j' [c' Hj']]. rewrite Hj' in E.
      rewrite !app_assoc in E. apply app_inj_tail in E. destruct E as [_ <-].
      apply (IH j' c'). exact Hj'.
Qed.

Lemma join_words_strip (ws : list str) :
  Forall is_a_word ws -> strip (join (u " ") ws) = join (u " ") ws.
Proof.
  intros H. unfold strip.
  rewrite (lstrip_fixed _ (fun c t => join_first ws c t H)).
  apply rstrip_fixed. now apply join_last.
Qed.

Lemma join_snoc (sep : str) (ds : list str) (w : str) :
  join sep (ds ++ [w])
  = match ds with
    | [] => w
    | _ => join sep ds ++ sep ++ w
    end.
Proof.
  induction ds as [|d ds IH]; [reflexivity|].
  destruct ds as [|d' ds]; [reflexivity|].
  change (join sep ((d :: d' :: ds) ++ [w]))
    with (d ++ sep ++ join sep ((d' :: ds) ++ [w])).
  rewrite IH. change (join sep (d :: d' :: ds)) with (d ++ sep ++ join sep (d' :: ds)).
  now rewrite <- !app_assoc.
Qed.

Lemma join_words_empty (ds : list str) :
  Forall is_a_word ds -> join (u " ") ds = [] -> ds = [].
Proof.
  destruct ds as [|d ds]; [reflexivity|].
  intros H. inversion H as [|? ? [Hne _] _]; subst. cbn [join].
  destruct d; [congruence|]. destruct ds; discriminate.
Qed.

(** The fallback takes whole words while they fit. *)
Lemma take_words_prefix (max_chars : nat) (ws : list str) :
  Forall is_a_word ws ->
  forall done,
  len (join (u " ") done) <= max_chars -> Forall is_a_word done ->
  exists k,
    take_words max_chars (join (u " ") done) ws
    = join (u " ") (firstn k (done ++ ws))
    /\ len (join (u " ") (firstn k (done ++ ws))) <= max_chars.
Proof.
  induction 1 as [|w ws Hw Hws IH]; intros done Hlen Hdone; cbn [take_words].
  - exists (List.length done). rewrite app_nil_r, firstn_all. auto.
  - destruct (max_chars <? len (join (u " ") done) + len w + 1) eqn:E.
    + exists (List.length done). rewrite firstn_app, firstn_all, Nat.sub_diag.
      cbn [firstn]. rewrite app_nil_r. auto.
    + apply Nat.ltb_ge in E.
      assert (Hj : match join (u " ") done with
                   | [] => w
                   | _ => join (u " ") done ++ u " " ++ w
                   end = join (u " ") (done ++ [w])).
      { rewrite join_snoc. destruct (join (u " ") done) eqn:J.
        - now rewrite (join_words_empty done Hdone J).
        - destruct done; [discriminate | reflexivity]. }
      rewrite Hj.
      destruct (IH (done ++ [w])) as [k [H1 H2]].
      * rewrite <- Hj. unfold len in *.
        destruct (join (u " ") done); cbn [List.length] in *;
          rewrite ?length_app; cbn [List.length] in *; rewrite ?length_app;
          cbn; lia.
      * apply Forall_app. split; [exact Hdone | now constructor].
      * exists k. rewrite <- app_assoc in H1, H2. cbn [app] in H1, H2. auto.
Qed.

End ShortenFacts.

(* ================================================================== *)
(** * Part IV: the claims                                               *)
(* ================================================================== *)

Section Claims.
Import data_extractor domain_classifier content_writer citation_verifier main.
Import Samples.

(** C1.  Every slide passed through [_filter_verified] comes out with, in
    each section and among its hooks, exactly the items for which some
    verified citation of the verifier has a claim equal to the item,
    containing it, or contained in it; a section is present in the output
    exactly when one of its items is kept, so a section whose items are all
    dropped is absent. *)
Theorem filter_verified_keeps_backed_items
  (verifier : CitationVerifier) (slides : list SlideContent)
  (i : nat) (slide : SlideContent) :
  nth_error slides i = Some slide ->
  Dict.wf (sections slide) ->
  let cits := citation_verifier.citations verifier in
  exists out,
    nth_error (_filter_verified verifier slides) i = Some out
    /\ (forall name item,
          In item (section_items out name) <->
          In item (section_items slide name) /\ backed cits item)
    /\ (forall hook,
          In hook (hook_items out) <->
          In hook (hook_items slide) /\ backed cits hook)
    /\ (forall name,
          Dict.mem str_eqb (sections out) name = true <->
          exists item, In item (section_items slide name) /\ backed cits item).
Proof.
  intros Hnth Hwf cits.
  exists (filter_slide cits slide). split; [|split; [|split]].
  - unfold _filter_verified. now rewrite nth_error_map, Hnth.
  - intros name item. rewrite (filter_slide_section cits slide name Hwf).
    rewrite filter_In, is_verified_backed. tauto.
  - intros hook. rewrite filter_slide_hooks, filter_In, is_verified_backed. tauto.
  - intros name. rewrite (filter_slide_section_present cits slide name Hwf).
    split.
    + intros Hne.
      destruct (filter (is_verified cits) (section_items slide name))
        as [|item kept] eqn:F; [congruence|].
      assert (Hin : In item (filter (is_verified cits) (section_items slide name)))
        by (rewrite F; now left).
      apply filter_In in Hin. exists item.
      now rewrite <- is_verified_backed.
    + intros [item [Hin Hb]] F.
      assert (Hf : In item (filter (is_verified cits) (section_items slide name)))
        by (apply filter_In; split; [exact Hin | now apply is_verified_backed]).
      rewrite F in Hf. exact Hf.
Qed.

(** C1 at a sample slide. *)
Lemma filter_verified_keeps_backed_items_witness :
  let cits := citation_verifier.citations Samples.verifier_with_citations in
  exists out,
    nth_error (main._filter_verified Samples.verifier_with_citations
                 [Samples.profile_slide]) 0 = Some out
    /\ (forall name item,
          In item (section_items out name) <->
          In item (section_items Samples.profile_slide name) /\ backed cits item)
    /\ (forall hook,
          In hook (hook_items out) <->
          In hook (hook_items Samples.profile_slide) /\ backed cits hook)
    /\ (forall name,
          Dict.mem str_eqb (content_writer.sections out) name = true <->
          exists item, In item (section_items Samples.profile_slide name)
                       /\ backed cits item).
Proof.
  apply (filter_verified_keeps_backed_items Samples.verifier_with_citations
           [Samples.profile_slide] 0 Samples.profile_slide).
  - reflexivity.
  - unfold Dict.wf. simpl. repeat constructor; simpl; intuition discriminate.
Defined.




(** C3 on the code.  The claim "FY24: ₹210 Cr" matches no calculated-claim
    pattern, so whatever the sources it is sent to the document check, and
    the direct FY-value check is never reached for it; with
    [revenue = {2024: 210}] and a document without a matching line it comes
    back unverified.  Reached directly,
    that check accepts 210 (difference under 1, the year 24 read as 2024)
    and rejects 215, as the specification describes. *)
Theorem fy_claim_never_reaches_the_fy_check
  (pow : float -> float -> pynum) (self : CitationVerifier)
  (slide : Z) (context : str) :
  _verify_claim pow self slide (u "FY24: ₹210 Cr") context =
  Ok (_verify_onepager self slide (u "FY24: ₹210 Cr") context)
  /\ _is_calculated_claim (u "FY24: ₹210 Cr") = false
  /\ _is_web_claim (u "FY24: ₹210 Cr") = false
  /\ _verify_claim quartic_pow revenue_verifier 2 (u "FY24: ₹210 Cr")
       (u "Revenue Trend") =
     Ok (unverified 2 (u "FY24: ₹210 Cr") "No matching source found in one-pager")
  /\ _verify_calculated quartic_pow revenue_verifier 2 (u "FY24: ₹210 Cr")
       (u "Revenue Trend") =
     Ok (cited 2 (u "FY24: ₹210 Cr") "onepager"
           (u "Financial data: Revenue FY2024 = ₹210.00 Cr")
           (Some (VFloat 210)))
  /\ verdict (_verify_calculated quartic_pow revenue_verifier 2
                (u "FY24: ₹215 Cr") (u "Revenue Trend")) = Some false
  /\ verdict (_verify_claim quartic_pow revenue_verifier 2
                (u "FY24: ₹215 Cr") (u "Revenue Trend")) = Some false.
Proof.
  split.
  - unfold _verify_claim.
    change (len (strip (u "FY24: ₹210 Cr")) <? 3) with false.
    change (_is_calculated_claim (u "FY24: ₹210 Cr")) with false.
    change (_is_web_claim (u "FY24: ₹210 Cr")) with false.
    reflexivity.
  - vm_compute. repeat split; reflexivity.
Qed.



(** C5 on the code.  With no EBITDA series, the claim
    "EBITDA Margin FY24 (Rs. Cr)" reaches the FY-value check, whose pattern
    captures "." as the amount; [float(".")] raises [ValueError], which
    nothing in the verifier catches.  The call for the slide raises too, so
    the next claim of the section, which is a line of the document and is
    verified on its own, is never looked at. *)
Theorem amount_that_is_no_number_raises :
  option_map (fun m => group (u "EBITDA Margin FY24 (Rs. Cr)") m 2)
    (search false fy_pattern (u "EBITDA Margin FY24 (Rs. Cr)")) = Some (u ".")
  /\ py_float (u ".") = Raise ValueError
  /\ _verify_claim quartic_pow revenue_verifier 2
       (u "EBITDA Margin FY24 (Rs. Cr)") (u "Financial KPIs") = Raise ValueError
  /\ verdict (_verify_claim quartic_pow revenue_verifier 2
                (u "Acme makes industrial widgets") (u "Financial KPIs")) = Some true
  /\ verify_slide_content quartic_pow revenue_verifier 2 slide_with_table_header
     = Raise ValueError.
Proof. vm_compute. repeat split; reflexivity. Qed.

(** C6 on the code.  For the claim "EBITDA Margin FY24 (Rs. Cr)" and sources
    without an EBITDA series the call returns no citation at all: it has no
    verdict, no kind and no reference, since it raises (the claim is a
    calculated claim and its amount "." is no number). *)
Theorem call_that_raises_returns_no_citation :
  _is_calculated_claim (u "EBITDA Margin FY24 (Rs. Cr)") = true
  /\ verdict (_verify_claim quartic_pow revenue_verifier 2
                (u "EBITDA Margin FY24 (Rs. Cr)") (u "Financial KPIs")) = None
  /\ kind_of (_verify_claim quartic_pow revenue_verifier 2
                (u "EBITDA Margin FY24 (Rs. Cr)") (u "Financial KPIs")) = None
  /\ reference_of (_verify_claim quartic_pow revenue_verifier 2
                     (u "EBITDA Margin FY24 (Rs. Cr)") (u "Financial KPIs")) = None.
Proof. vm_compute. repeat split; reflexivity. Qed.






(** C10 on the code.  With empty financial series and a document whose
    second line is the claim itself, the claim "EBITDA Margin: 19.0%" comes
    back unverified, as the claim says, although the document check alone
    would cite line 2; but the claim "EBITDA Margin FY24 (Rs. Cr)", also a
    line of the document, yields no citation: the call raises. *)
Theorem margin_claim_in_document_may_raise :
  md_lines table_verifier =
    [u "## Financials"; u "EBITDA Margin: 19.0%"; u "EBITDA Margin FY24 (Rs. Cr)"]
  /\ _verify_claim quartic_pow table_verifier 2 (u "EBITDA Margin: 19.0%")
       (u "Financial KPIs") =
     Ok (unverified 2 (u "EBITDA Margin: 19.0%") "Calculated value not verified")
  /\ reference_of (Ok (_verify_onepager table_verifier 2 (u "EBITDA Margin: 19.0%")
                         (u "Financial KPIs"))) =
     Some (u "Line 2: EBITDA Margin: 19.0%")
  /\ _verify_claim quartic_pow table_verifier 2 (u "EBITDA Margin FY24 (Rs. Cr)")
       (u "Financial KPIs") = Raise ValueError.
Proof. vm_compute. repeat split; reflexivity. Qed.

(** X1.  Whenever the per-claim verification returns, it returns one
    citation for the claim it was given, with a reference that is not empty,
    verified exactly when its kind is 'onepager', 'calculated' or 'web' and
    unverified exactly when its kind is 'unverified'.  It returns for every
    claim that matches no calculated-claim pattern; for one that does, the
    only exception it can raise is [ValueError]. *)
Theorem verify_claim_returns_well_formed_citation
  (float_pow : float -> float -> pynum)
  (self : CitationVerifier) (slide : Z) (c context : str) :
  match _verify_claim float_pow self slide c context with
  | Ok cit => well_formed slide c cit
  | Raise e => e = ValueError /\ _is_calculated_claim c = true
  end.
Proof.
  unfold _verify_claim.
  destruct c as [|c0 c']; [apply unverified_well_formed; discriminate|].
  destruct (len (strip (c0 :: c')) <? 3);
    [apply unverified_well_formed; discriminate|].
  destruct (_is_calculated_claim (c0 :: c')) eqn:Hcalc.
  - pose proof (verify_calculated_result float_pow self slide (c0 :: c') context) as H.
    destruct (_verify_calculated _ _ _ _ _); auto.
  - destruct (_is_web_claim (c0 :: c')).
    + apply verify_web_data_well_formed.
    + apply verify_onepager_well_formed.
Qed.

(** X2.  Kind dispatch is exclusive.  For a claim that matches a
    calculated-claim pattern the result depends on the financial series
    alone: neither the lines of the document, nor the other extracted
    fields, nor the web data are looked at.  For a claim that matches no
    calculated-claim pattern and matches a web-claim pattern the result
    depends on the web data alone.  With empty revenue and EBITDA series, a
    claim containing "Margin" or "CAGR" is never verified, whatever the
    document holds: the call returns the citation "Calculated value not
    verified", unless it raises [ValueError]. *)
Theorem dispatch_is_exclusive
  (float_pow : float -> float -> pynum)
  (self other : CitationVerifier) (slide : Z) (c context : str) :
  (_is_calculated_claim c = true ->
   financials (extracted_data self) = financials (extracted_data other) ->
   _verify_claim float_pow self slide c context =
   _verify_claim float_pow other slide c context)
  /\ (_is_calculated_claim c = false -> _is_web_claim c = true ->
      web_data self = web_data other ->
      _verify_claim float_pow self slide c context =
      _verify_claim float_pow other slide c context)
  /\ (str_in (u "Margin") c = true \/ str_in (u "CAGR") c = true ->
      metric (extracted_data self) "revenue" = [] ->
      metric (extracted_data self) "ebitda" = [] ->
      match _verify_claim float_pow self slide c context with
      | Ok cit => cit = unverified slide c "Calculated value not verified"
      | Raise e => e = ValueError
      end).
Proof.
  split; [|split].
  - intros Hcalc Hfin. unfold _verify_claim. rewrite Hcalc.
    unfold _verify_calculated, check_cagr, check_margin, check_fy_value, metric.
    now rewrite Hfin.
  - intros Hcalc Hweb Hdata. unfold _verify_claim. rewrite Hcalc, Hweb.
    unfold _verify_web_data. now rewrite Hdata.
  - intros Hword Hrev Hebitda.
    destruct (claim_with_word_not_short c Hword) as [Hne Hlong].
    unfold _verify_claim. destruct c as [|c0 c']; [congruence|].
    rewrite Hlong, (calculated_claim_by_word _ Hword).
    unfold _verify_calculated, check_cagr, check_margin, check_fy_value.
    rewrite Hrev, Hebitda. cbn [List.length Nat.leb].
    destruct (str_in (u "CAGR") (c0 :: c')); cbn [bind];
      (destruct (str_in (u "Margin") (c0 :: c')); cbn [bind]);
      (destruct (search false fy_pattern (c0 :: c')) as [m|]; cbn [bind];
       [|reflexivity]);
      (destruct (py_float _) as [value|e] eqn:Hv; cbn [bind];
       [|eapply py_float_raises; eauto]);
      (destruct (py_int _) as [y|e] eqn:Hy; cbn [bind];
       [|eapply py_int_raises; eauto]);
      reflexivity.
Qed.

(** X2 at the document above. *)
Lemma dispatch_is_exclusive_witness :
  match _verify_claim quartic_pow table_verifier 2 (u "EBITDA Margin: 19.0%")
          (u "Financial KPIs") with
  | Ok cit =>
    cit = unverified 2 (u "EBITDA Margin: 19.0%") "Calculated value not verified"
  | Raise e => e = ValueError
  end.
Proof.
  exact (proj2 (proj2 (dispatch_is_exclusive quartic_pow table_verifier
                         table_verifier 2 (u "EBITDA Margin: 19.0%")
                         (u "Financial KPIs")))
               (or_introl eq_refl) eq_refl eq_refl).
Defined.

(** X3.  [_clean_for_matching] brings every text to one form: what it
    returns holds no markdown character ([*], [_], [#], [-], [|], [`]) and
    no ASCII capital, its only white space is single spaces between other
    characters, none at either end; cleaning a cleaned text changes
    nothing. *)
Theorem clean_for_matching_normal_form (text : str) :
  cleaned (_clean_for_matching text)
  /\ _clean_for_matching (_clean_for_matching text) = _clean_for_matching text.
Proof.
  split; [apply clean_for_matching_cleaned|].
  apply clean_for_matching_fixed, clean_for_matching_cleaned.
Qed.

(** X4.  [verify_slide_content] verifies the items of the sections in
    order, then the hooks, each against the sources alone: when it returns
    it returns one citation per claim, the one [_verify_claim] gives for it,
    bearing the claim and the slide number, and the verifier holds the
    citations it held before followed by these, its sources unchanged.  It
    returns exactly when the verification of every claim returns. *)
Theorem verify_slide_content_cites_each_claim
  (float_pow : float -> float -> pynum) (self : CitationVerifier)
  (slide : Z) (s : SlideContent) :
  (forall cs self',
     verify_slide_content float_pow self slide s = Ok (cs, self') ->
     Forall2 (fun ic cit =>
                _verify_claim float_pow self slide (fst ic) (snd ic) = Ok cit
                /\ claim cit = fst ic /\ slide_num cit = slide)
             (slide_claims s) cs
     /\ citation_verifier.citations self' = citation_verifier.citations self ++ cs
     /\ same_sources self self')
  /\ ((forall ic, In ic (slide_claims s) ->
         exists cit, _verify_claim float_pow self slide (fst ic) (snd ic) = Ok cit)
      <-> exists cs self', verify_slide_content float_pow self slide s = Ok (cs, self')).
Proof.
  rewrite verify_slide_content_eq.
  set (f := fun ic : str * str =>
              _verify_claim float_pow self slide (fst ic) (snd ic)).
  split; [|split].
  - intros cs self' H.
    destruct (map_exc f (slide_claims s)) as [new|e] eqn:M; cbn [bind] in H;
      [|discriminate].
    injection H as <- <-. destruct (record_sources self new) as [Hs Hc].
    split; [|split; assumption].
    apply map_exc_spec in M.
    eapply Forall2_impl; [|exact M].
    intros ic cit Hic. split; [exact Hic|].
    apply verify_claim_ok in Hic. destruct Hic as [Hn [Hcl _]]. auto.
  - intros H. destruct (map_exc_total f (slide_claims s) H) as [new ->].
    cbn [bind]. eauto.
  - intros [cs [self' H]] ic Hin.
    destruct (map_exc f (slide_claims s)) as [new|e] eqn:M; cbn [bind] in H;
      [|discriminate].
    apply map_exc_spec in M.
    destruct (Forall2_in_left _ _ _ _ M Hin) as [cit [_ Hc]]. eauto.
Qed.

(** X5.  Steps 5 and 6 of [process] together.  When every slide has been
    verified, the verifier holds the citations it held before the run
    followed by the new ones (they are not reset), and the filter keeps
    every section item and every hook whose own citation is verified; so an
    item that is dropped has an unverified citation. *)
Theorem verified_items_survive_the_filter
  (float_pow : float -> float -> pynum) (verifier : CitationVerifier)
  (md_file : str) (extracted : ExtractedData) (md_content : str)
  (web : option WebData) (slides : list SlideContent)
  (cits : list Citation) (out : list SlideContent) (verifier' : CitationVerifier) :
  verify_and_filter float_pow verifier md_file extracted md_content web slides
    = Ok (cits, out, verifier') ->
  let sources := set_sources verifier md_file extracted md_content web in
  citation_verifier.citations verifier'
    = citation_verifier.citations verifier ++ cits
  /\ forall k s,
       nth_error slides k = Some s -> Dict.wf (sections s) ->
       exists kept,
         nth_error out k = Some kept
         /\ (forall name item,
               In item (section_items s name) ->
               exists cit,
                 In cit cits
                 /\ _verify_claim float_pow sources (1 + Z.of_nat k) item name
                    = Ok cit
                 /\ (verified cit = true -> In item (section_items kept name)))
         /\ (forall hook,
               In hook (hook_items s) ->
               exists cit,
                 In cit cits
                 /\ _verify_claim float_pow sources (1 + Z.of_nat k) hook
                      (u "Investment Hook") = Ok cit
                 /\ (verified cit = true -> In hook (hook_items kept))).
Proof.
  intros H sources. unfold verify_and_filter in H. fold sources in H.
  rewrite verify_slides_eq in H.
  set (f := fun nic : Z * (str * str) =>
              _verify_claim float_pow sources (fst nic) (fst (snd nic))
                (snd (snd nic))) in H.
  destruct (map_exc f (deck_claims 1 slides)) as [new|e] eqn:M; cbn [bind] in H;
    [|discriminate].
  cbn [fst snd app] in H. injection H as <- <- <-.
  destruct (record_sources sources new) as [_ Hc].
  split; [exact Hc|].
  intros k s Hk Hwf. exists (filter_slide (citation_verifier.citations (fold_left record new sources)) s).
  split; [unfold _filter_verified; now rewrite nth_error_map, Hk|].
  apply map_exc_spec in M.
  assert (G : forall item context,
            In (item, context) (slide_claims s) ->
            exists cit, In cit new
              /\ _verify_claim float_pow sources (1 + Z.of_nat k) item context = Ok cit
              /\ (verified cit = true ->
                  is_verified (citation_verifier.citations (fold_left record new sources)) item = true)).
  { intros item context Hin.
    pose proof (deck_claim_at slides 1 k s (item, context) Hk Hin) as Hd.
    destruct (Forall2_in_left _ _ _ _ M Hd) as [cit [Hcit Hv]].
    unfold f in Hv. cbn [fst snd] in Hv.
    exists cit. split; [exact Hcit|]. split; [exact Hv|].
    intros Hver. apply is_verified_backed. exists cit.
    split; [rewrite Hc; apply in_or_app; now right|].
    split; [exact Hver|]. left.
    apply verify_claim_ok in Hv. now destruct Hv as [_ [Hcl _]]. }
  split.
  - intros name item Hin.
    destruct (G item name (section_item_claim s name item Hin)) as [cit [H1 [H2 H3]]].
    exists cit. split; [exact H1|]. split; [exact H2|].
    intros Hver. rewrite (filter_slide_section _ _ _ Hwf).
    apply filter_In. auto.
  - intros hook Hin.
    destruct (G hook _ (hook_item_claim s hook Hin)) as [cit [H1 [H2 H3]]].
    exists cit. split; [exact H1|]. split; [exact H2|].
    intros Hver. rewrite filter_slide_hooks. apply filter_In. auto.
Qed.

(** X5 at a slide with a claim that is computed, one that is not found and
    a hook that is a line of the document. *)
Lemma verified_items_survive_the_filter_witness :
  exists cits out verifier',
    verify_and_filter quartic_pow __init__ (u "onepager.md") margin_data
      one_line_document None [kpi_slide] = Ok (cits, out, verifier')
    /\ (let sources := set_sources __init__ (u "onepager.md") margin_data
                         one_line_document None in
        citation_verifier.citations verifier'
          = citation_verifier.citations __init__ ++ cits
        /\ forall k s,
             nth_error [kpi_slide] k = Some s -> Dict.wf (sections s) ->
             exists kept,
               nth_error out k = Some kept
               /\ (forall name item,
                     In item (section_items s name) ->
                     exists cit,
                       In cit cits
                       /\ _verify_claim quartic_pow sources (1 + Z.of_nat k) item name
                          = Ok cit
                       /\ (verified cit = true -> In item (section_items kept name)))
               /\ (forall hook,
                     In hook (hook_items s) ->
                     exists cit,
                       In cit cits
                       /\ _verify_claim quartic_pow sources (1 + Z.of_nat k) hook
                            (u "Investment Hook") = Ok cit
                       /\ (verified cit = true -> In hook (hook_items kept)))).
Proof.
  eexists _, _, _. split; [vm_compute; reflexivity|].
  apply (verified_items_survive_the_filter quartic_pow __init__ (u "onepager.md")
           margin_data one_line_document None [kpi_slide]).
  vm_compute. reflexivity.
Defined.

(** X6.  The summary [generate_report] returns counts every citation the
    verifier holds: the total is their number, the verified and the
    unverified ones add up to it, the counts by kind hold exactly the kinds
    that occur, each with the number of its citations, and add up to the
    total; with no citation at all the rate is the integer 100.  When every
    citation is unverified exactly if its kind is 'unverified', the
    verified count and the count of that kind add up to the total. *)
Theorem report_counts_add_up (self : CitationVerifier) (company_name : str) :
  let r := snd (generate_report self company_name) in
  let cits := citation_verifier.citations self in
  total_claims r = List.length cits
  /\ verified_count r = List.length (filter verified cits)
  /\ verified_count r
     + List.length (filter (fun c => negb (verified c)) cits) = total_claims r
  /\ Dict.wf (by_source_type r)
  /\ (forall kind, count_of (by_source_type r) kind = cited_as kind cits)
  /\ (forall kind, In kind (Dict.keys (by_source_type r))
                   <-> 0 < cited_as kind cits)
  /\ list_sum (map snd (by_source_type r)) = total_claims r
  /\ (cits = [] -> verification_rate r = IntRate 100)
  /\ (Forall kind_agrees cits ->
      verified_count r + count_of (by_source_type r) (u "unverified")
      = total_claims r).
Proof.
  intros r cits. subst r. unfold generate_report. cbn [snd total_claims
    verified_count by_source_type verification_rate]. fold cits.
  pose proof (count_types_from cits [] (NoDup_nil _)) as H.
  cbv zeta in H. fold (count_types cits) in H.
  destruct H as [H1 [H2 [H3 H4]]].
  set (by_type := count_types cits) in *.
  assert (H2' : forall kind, count_of by_type kind = cited_as kind cits)
    by (intros kind; now rewrite H2).
  split; [reflexivity|]. split; [reflexivity|].
  split; [apply filter_partition|].
  split; [exact H1|]. split; [exact H2'|]. split; [|split; [exact H3|split]].
  - intros kind. split.
    + intros Hin. destruct (H4 kind Hin) as [[] | H]. exact H.
    + intros Hpos. rewrite <- (H2' kind) in Hpos.
      destruct (in_dec (list_eq_dec N.eq_dec) kind (Dict.keys by_type))
        as [Hin | Hout]; [exact Hin|].
      apply get_none_not_key in Hout. unfold count_of in Hpos.
      rewrite Hout in Hpos. lia.
  - intros ->. reflexivity.
  - intros Hall. rewrite H2'.
    rewrite <- (unverified_count cits Hall). apply filter_partition.
Qed.



(** X8.  What [_verify_onepager] cites.  A citation with a line number is
    verified, of kind 'onepager', and names a line of the document: the
    number is its position counted from 1, the content and the reference
    are the line stripped, and the line matches the claim (after cleaning,
    one contains the other, or the claim has more than two distinct words
    and more than half of them are words of the line).  A citation without
    a line number is either verified by a string field of the extracted
    data that contains the cleaned claim or is contained in it, cited as
    "Field: <name>", or it is the unverified citation
    "No matching source found in one-pager". *)
Theorem verify_onepager_cites_a_matching_line
  (self : CitationVerifier) (slide : Z) (c context : str) :
  let cit := _verify_onepager self slide c context in
  match line_number cit with
  | Some n =>
    verified cit = true /\ source_type cit = u "onepager"
    /\ exists line,
         1 <= n /\ nth_error (md_lines self) (n - 1) = Some line
         /\ line_content cit = Some (strip line)
         /\ source_reference cit
            = u "Line " ++ str_of_nat n ++ u ": " ++ strip line
         /\ line_matches c line
  | None =>
    line_content cit = None
    /\ if verified cit
       then exists name value,
              In (name, VStr value)
                 (_flatten_dict (as_dict (extracted_data self)) [])
              /\ cit = cited slide c "onepager" (u "Field: " ++ name)
                         (Some (VStr value))
              /\ (str_in (_clean_for_matching c) (_clean_for_matching value) = true
                  \/ str_in (_clean_for_matching value) (_clean_for_matching c)
                     = true)
       else cit = unverified slide c "No matching source found in one-pager"
  end.
Proof.
  intros cit. subst cit. unfold _verify_onepager.
  set (cc := _clean_for_matching c).
  set (fs := _flatten_dict (as_dict (extracted_data self)) []).
  assert (Hfields :
    let cit := match check_fields cc fs slide c with
               | Some cit => cit
               | None => unverified slide c "No matching source found in one-pager"
               end in
    match line_number cit with
    | Some n => False
    | None =>
      line_content cit = None
      /\ if verified cit
         then exists name value,
                In (name, VStr value) fs
                /\ cit = cited slide c "onepager" (u "Field: " ++ name)
                           (Some (VStr value))
                /\ (str_in cc (_clean_for_matching value) = true
                    \/ str_in (_clean_for_matching value) cc = true)
         else cit = unverified slide c "No matching source found in one-pager"
    end).
  { destruct (check_fields cc fs slide c) as [cit|] eqn:F; cbv zeta.
    - destruct (check_fields_match cc fs slide c cit F) as [name [value [Hin [-> Hm]]]].
      cbn [line_number line_content verified cited]. split; [reflexivity|].
      exists name, value. auto.
    - cbn. auto. }
  cbv zeta in Hfields.
  destruct (scan_lines_match cc (md_lines self) (None, zero) 1) as [H | H].
  - cbn [fst] in H.
    destruct (scan_lines cc (None, zero) 1 (md_lines self)) as [[[n line]|] score];
      cbn [fst] in H; [discriminate|].
    destruct (line_number _) eqn:L; [destruct Hfields | exact Hfields].
  - destruct H as [n [line [H1 [H2 [H3 H4]]]]].
    destruct (scan_lines cc (None, zero) 1 (md_lines self)) as [[[n' line']|] score];
      cbn [fst] in H1; [|discriminate].
    injection H1 as -> ->.
    destruct (gt score f0_3).
    + cbn [line_number verified source_type line_content source_reference].
      split; [reflexivity|]. split; [reflexivity|].
      exists line. repeat split; auto.
    + destruct (line_number _) eqn:L; [destruct Hfields | exact Hfields].
Qed.

(** X9.  A line of the document that cleans to nothing (an empty line, a
    rule such as "---", a lone "#") is contained in every claim, with the
    length of the cleaned claim as its score: when the document holds such
    a line, [_verify_onepager] verifies every claim whose cleaned text is
    not empty (proved for cleaned claims of up to 4096 characters),
    citing a line of the document; so does [_verify_claim] for every claim
    of three characters or more that is neither a calculated nor a web
    claim. *)
Theorem blank_line_verifies_every_claim
  (float_pow : float -> float -> pynum) (self : CitationVerifier)
  (slide : Z) (c context line : str) :
  In line (md_lines self) -> _clean_for_matching line = [] ->
  1 <= len (_clean_for_matching c) <= 4096 ->
  (exists n,
     verified (_verify_onepager self slide c context) = true
     /\ source_type (_verify_onepager self slide c context) = u "onepager"
     /\ line_number (_verify_onepager self slide c context) = Some n)
  /\ (3 <= len (strip c) ->
      _is_calculated_claim c = false -> _is_web_claim c = false ->
      exists cit,
        _verify_claim float_pow self slide c context = Ok cit
        /\ verified cit = true).
Proof.
  intros Hin Hline Hlen.
  assert (G : exists n,
     verified (_verify_onepager self slide c context) = true
     /\ source_type (_verify_onepager self slide c context) = u "onepager"
     /\ line_number (_verify_onepager self slide c context) = Some n).
  { unfold _verify_onepager.
    destruct (scan_lines_blank _ _ _ Hin Hline Hlen) as [S1 S2].
    destruct (scan_lines (_clean_for_matching c) (None, zero) 1 (md_lines self))
      as [[[n l]|] score]; cbn [fst snd] in S1, S2; [|congruence].
    rewrite S2. exists n. repeat split. }
  split; [exact G|].
  intros Hlong Hcalc Hweb. unfold _verify_claim.
  destruct c as [|c0 c']; [cbn in Hlong; lia|].
  apply Nat.ltb_ge in Hlong. rewrite Hlong, Hcalc, Hweb.
  destruct G as [n [G _]]. eauto.
Qed.

(** X9 at a document that ends with a newline. *)
Lemma blank_line_verifies_every_claim_witness :
  (exists n,
     verified (_verify_onepager blank_line_verifier 1
                 (u "Fastest growing brand") (u "Awards")) = true
     /\ source_type (_verify_onepager blank_line_verifier 1
                       (u "Fastest growing brand") (u "Awards")) = u "onepager"
     /\ line_number (_verify_onepager blank_line_verifier 1
                       (u "Fastest growing brand") (u "Awards")) = Some n)
  /\ (3 <= len (strip (u "Fastest growing brand")) ->
      _is_calculated_claim (u "Fastest growing brand") = false ->
      _is_web_claim (u "Fastest growing brand") = false ->
      exists cit,
        _verify_claim quartic_pow blank_line_verifier 1
          (u "Fastest growing brand") (u "Awards") = Ok cit
        /\ verified cit = true).
Proof.
  apply (blank_line_verifies_every_claim quartic_pow blank_line_verifier 1
           (u "Fastest growing brand") (u "Awards") []).
  - right. now left.
  - reflexivity.
  - split; apply Nat.leb_le; vm_compute; reflexivity.
Defined.

(** X10.  [validate] separates errors from warnings by the wording of the
    issue: the data are valid exactly when the business description, the
    website, the revenue series and the EBITDA series are all present; a
    missing list of products or of shareholders adds its warning to the
    issues and leaves the data valid; there is no issue exactly when all
    six are present. *)
Theorem validate_separates_errors_from_warnings (data : CompanyData) :
  let r := validate data in
  (fst r = true <->
   business_description data <> [] /\ website data <> []
   /\ revenue (financials_data data) <> []
   /\ ebitda (financials_data data) <> [])
  /\ (snd r = [] <->
      business_description data <> [] /\ website data <> []
      /\ revenue (financials_data data) <> []
      /\ ebitda (financials_data data) <> []
      /\ products_services data <> [] /\ shareholders data <> [])
  /\ (products_services data = [] <->
      In (u "Warning: No products/services extracted") (snd r))
  /\ (shareholders data = [] <->
      In (u "Warning: No shareholders extracted") (snd r)).
Proof.
  unfold validate, len. cbn [fst snd].
  set (b1 := List.length (business_description data) =? 0).
  set (b2 := List.length (website data) =? 0).
  set (b3 := List.length (revenue (financials_data data)) =? 0).
  set (b4 := List.length (ebitda (financials_data data)) =? 0).
  set (b5 := List.length (products_services data) =? 0).
  set (b6 := List.length (shareholders data) =? 0).
  pose proof (length_zero (business_description data)) as E1.
  pose proof (length_zero (website data)) as E2.
  pose proof (length_zero (revenue (financials_data data))) as E3.
  pose proof (length_zero (ebitda (financials_data data))) as E4.
  pose proof (length_zero (products_services data)) as E5.
  pose proof (length_zero (shareholders data)) as E6.
  fold b1 in E1. fold b2 in E2. fold b3 in E3. fold b4 in E4.
  fold b5 in E5. fold b6 in E6.
  split; [|split; [|split]].
  - rewrite !existsb_app, !existsb_issue.
    change (str_in (u "Missing") (u "Missing business description")) with true.
    change (str_in (u "Missing") (u "Missing website URL")) with true.
    change (str_in (u "Missing") (u "Missing revenue data")) with true.
    change (str_in (u "Missing") (u "Missing EBITDA data")) with true.
    change (str_in (u "Missing") (u "Warning: No products/services extracted"))
      with false.
    change (str_in (u "Missing") (u "Warning: No shareholders extracted"))
      with false.
    rewrite <- E1, <- E2, <- E3, <- E4.
    destruct b1, b2, b3, b4, b5, b6; cbn; intuition congruence.
  - rewrite <- E1, <- E2, <- E3, <- E4, <- E5, <- E6.
    destruct b1, b2, b3, b4, b5, b6; cbn [issue app];
      split; intros H; try discriminate; try (repeat split; reflexivity);
      intuition congruence.
  - rewrite !in_app_iff, !in_issue.
    pose proof (length_zero_true (products_services data)) as N. fold b5 in N.
    rewrite <- N. split.
    + intros H. do 4 right. left. auto.
    + intros [[_ H] | [[_ H] | [[_ H] | [[_ H] | [[H _] | [_ H]]]]]];
        try exact H; vm_compute in H; discriminate.
  - rewrite !in_app_iff, !in_issue.
    pose proof (length_zero_true (shareholders data)) as N. fold b6 in N.
    rewrite <- N. split.
    + intros H. do 5 right. auto.
    + intros [[_ H] | [[_ H] | [[_ H] | [[_ H] | [[_ H] | [H _]]]]]];
        try exact H; vm_compute in H; discriminate.
Qed.

(** X11.  [get_latest_years_data] returns the entries of the latest years
    of a series, in ascending order of the year and with the values of the
    series: of the years sorted, the first [len - num_years] are dropped
    (none when there are fewer years than asked for), so every year kept
    is later than every year dropped.  A negative [num_years] drops that
    many of the earliest years instead.  The call never raises. *)
Theorem latest_years_are_the_largest (d : series) (num_years : Z) :
  Dict.wf d ->
  let years := sorted (Dict.keys d) in
  let dropped :=
    if (0 <=? num_years)%Z then List.length d - Z.to_nat num_years
    else Nat.min (List.length d) (Z.to_nat (- num_years)) in
  exists r,
    get_latest_years_data d num_years = Ok r
    /\ Dict.keys r = skipn dropped years
    /\ ascending (Dict.keys r)
    /\ (forall y, In y (Dict.keys r) ->
          In y (Dict.keys d) /\ year_get r y = year_get d y)
    /\ (forall y z, In y (Dict.keys r) -> In z (Dict.keys d) ->
          ~ In z (Dict.keys r) -> (z < y)%Z).
Proof.
  intros Hwf years dropped.
  assert (Hlen : List.length years = List.length d).
  { unfold years. rewrite sorted_length. unfold Dict.keys. apply length_map. }
  assert (Hasc : ascending years) by apply sorted_ascending.
  assert (Hnd : NoDup years) by (apply sorted_NoDup; exact Hwf).
  assert (Htake : take num_years (rev years) = rev (skipn dropped years)).
  { unfold take, dropped. rewrite length_rev, Hlen.
    destruct (0 <=? num_years)%Z; rewrite firstn_rev, Hlen; [reflexivity|].
    f_equal. f_equal. lia. }
  assert (Hsorted : sorted (take num_years (rev years)) = skipn dropped years).
  { rewrite Htake. apply sorted_rev; [now apply ascending_skipn | now apply NoDup_skipn]. }
  assert (Hsub : forall y, In y (skipn dropped years) -> In y (Dict.keys d)).
  { intros y Hy. apply (sorted_in y (Dict.keys d)). fold years.
    rewrite <- (firstn_skipn dropped years). apply in_or_app. now right. }
  assert (G : exists r,
    restrict d (skipn dropped years) [] = Ok r
    /\ Dict.keys r = skipn dropped years
    /\ (forall y, In y (skipn dropped years) -> year_get r y = year_get d y)).
  { destruct (restrict_keys d (skipn dropped years) [] Hsub) as [r [H1 [H2 [H3 _]]]].
    - cbn [Dict.keys map app]. now apply NoDup_skipn.
    - exists r. auto. }
  destruct G as [r [H1 [H2 H3]]].
  assert (Hret : get_latest_years_data d num_years = Ok r).
  { unfold get_latest_years_data. destruct d as [|e d'].
    - cbn in years. subst years. rewrite skipn_nil in H1. cbn in H1. exact H1.
    - fold years. rewrite Hsorted. exact H1. }
  exists r. split; [exact Hret|]. split; [exact H2|]. rewrite H2.
  split; [now apply ascending_skipn|]. split.
  - intros y Hy. split; [now apply Hsub | now apply H3].
  - intros y z Hy Hz Hnz.
    apply (ascending_app_lt (firstn dropped years) (skipn dropped years));
      try (rewrite firstn_skipn; assumption); [|exact Hy].
    apply (sorted_in z (Dict.keys d)) in Hz. fold years in Hz.
    rewrite <- (firstn_skipn dropped years) in Hz.
    apply in_app_or in Hz. tauto.
Qed.

(** X11 at the five-year series, the three latest years asked for. *)
Lemma latest_years_are_the_largest_witness :
  exists r,
    get_latest_years_data revenue_2020_2024 3 = Ok r
    /\ Dict.keys r = [2022; 2023; 2024]%Z
    /\ ascending (Dict.keys r)
    /\ (forall y, In y (Dict.keys r) ->
          In y (Dict.keys revenue_2020_2024)
          /\ year_get r y = year_get revenue_2020_2024 y)
    /\ (forall y z, In y (Dict.keys r) -> In z (Dict.keys revenue_2020_2024) ->
          ~ In z (Dict.keys r) -> (z < y)%Z).
Proof.
  apply (latest_years_are_the_largest revenue_2020_2024 3).
  unfold Dict.wf. cbn. repeat constructor; cbn; intuition discriminate.
Defined.

(** X12.  [_shorten_text] returns a text of at most [max_chars] characters
    unless the text given already fits, which it returns unchanged.  A
    longer text becomes either leading words of the text joined by single
    spaces (the fallback: no word is cut, nothing is appended), or, when the
    collaborator answers, a part of its answer trimmed at both ends that
    does not end with a full stop; the later test for a trailing ".." can
    therefore never succeed. *)
Theorem shorten_text_fits
  (ollama_available : bool) (ollama_generate : str -> nat -> option str)
  (text : str) (max_chars : nat) (context : str) :
  let r := _shorten_text ollama_available ollama_generate text max_chars context in
  (len text <= max_chars -> r = text)
  /\ (max_chars < len text ->
      len r <= max_chars
      /\ ((exists k, r = join (u " ") (firstn k (split_ws text)))
          \/ (ollama_available = true
              /\ exists answer,
                   ollama_generate (shorten_prompt text max_chars) 80 = Some answer
                   /\ Substring r answer
                   /\ endswith (u ".") r = false))).
Proof.
  intros r. subst r. unfold _shorten_text. split.
  - intros H. apply Nat.leb_le in H. rewrite H. now rewrite orb_true_r.
  - intros H.
    assert (E1 : (len text =? 0) = false) by (apply Nat.eqb_neq; lia).
    assert (E2 : (len text <=? max_chars) = false) by (apply Nat.leb_gt; lia).
    rewrite E1, E2. cbn [orb].
    destruct (take_words_prefix max_chars (split_ws text) (split_ws_words text) [])
      as [k [Hk Hlen]]; [cbn; lia | constructor|].
    cbn [join app] in Hk, Hlen.
    assert (Hfb : strip (take_words max_chars [] (split_ws text))
                  = join (u " ") (firstn k (split_ws text))).
    { rewrite Hk. apply join_words_strip.
      apply Forall_forall. intros w Hw.
      pose proof (split_ws_words text) as Hall. rewrite Forall_forall in Hall.
      apply Hall. rewrite <- (firstn_skipn k (split_ws text)).
      apply in_or_app. now left. }
    assert (Fallback :
      len (strip (take_words max_chars [] (split_ws text))) <= max_chars
      /\ ((exists k0, strip (take_words max_chars [] (split_ws text))
                      = join (u " ") (firstn k0 (split_ws text)))
          \/ (ollama_available = true
              /\ exists answer,
                   ollama_generate (shorten_prompt text max_chars) 80 = Some answer
                   /\ Substring (strip (take_words max_chars [] (split_ws text))) answer
                   /\ endswith (u ".") (strip (take_words max_chars [] (split_ws text)))
                      = false))).
    { rewrite Hfb. split; [exact Hlen | left; now exists k]. }
    destruct ollama_available; [|exact Fallback].
    destruct (ollama_generate (shorten_prompt text max_chars) 80)
      as [[|a0 answer]|] eqn:G; try exact Fallback.
    set (s1 := rstrip_char 46%N
                 (strip_char 39%N (strip_char 34%N (strip (a0 :: answer))))).
    destruct (endswith_dot s1 (rstrip_char_last 46%N _)) as [D1 D2].
    rewrite D2.
    destruct (len s1 <=? max_chars) eqn:L; [|exact Fallback].
    apply Nat.leb_le in L. split; [exact L|]. right. split; [reflexivity|].
    exists (a0 :: answer). split; [reflexivity|]. split; [|exact D1].
    subst s1.
    eapply substring_trans; [|apply strip_substring].
    eapply substring_trans; [|apply strip_char_substring].
    eapply substring_trans; [|apply strip_char_substring].
    destruct (rstrip_char_split 46%N
                (strip_char 39%N (strip_char 34%N (strip (a0 :: answer)))))
      as [post Hp].
    exists [], post. exact Hp.
Qed.

End Claims.
